(** * tsx-dashboard: return windows, TTM aggregation and ratio fallbacks

    A shallow embedding of the computational layer of the dashboard:
    - [core/ratios.py]: [_col_like], [ttm_sum], [latest_value], [safe_div],
      [compute_core_ratios];
    - [core/data_source.py]: [_normalize_ticker], [get_profile];
    - [pages/1_Screener.py]: [ytd_return], [pct_window], the loop that
      fills the rows of the table;
    - [pages/2_Fiche_Valeur.py]: [_normalize_ticker], [render_kpi_block]
      with its [_ret_days] and [_ret_ytd];
    - [pages/3_Comparateur.py]: [_normalize_tsx].

    The five core operations are embedded a second time, in [Ambient], as
    computations that are handed the ambient state of the process they run
    in; there, that an operation does not depend on the clock is a
    property of its body.

    Numbers are IEEE-754 binary64 values (Python [float], numpy [float64]),
    modelled by Rocq's primitive floats; a missing observation is NaN, as in
    pandas.  Python's [None] is [option]'s [None].  A Python call either
    returns a value or raises: the type [py].  Dates are days (proleptic
    Gregorian ordinals); strings are ASCII; the row labels of a statement
    table are strings and distinct.  The system clock is an explicit
    argument of the functions that read it. *)

From Stdlib Require Import ZArith List Bool Lia Ascii String PrimFloat.
From stdpp Require Import base option list sorting gmap strings.

Local Open Scope Z_scope.

(** ** The Python runtime: outcomes, optional numbers, dictionaries *)

Module Py.

Inductive exn : Set :=
| TypeError
| KeyError
| IndexError
| ZeroDivisionError.

(** The outcome of evaluating a Python expression. *)
Inductive py (A : Type) : Type :=
| Ret (a : A)
| Raise (e : exn).
Arguments Ret {A} a.
Arguments Raise {A} e.

Definition bind {A B} (m : py A) (k : A -> py B) : py B :=
  match m with
  | Ret a => k a
  | Raise e => Raise e
  end.

(** [try: body / except Exception: handler]. *)
Definition try_except {A} (body : py A) (handler : exn -> py A) : py A :=
  match body with
  | Ret a => Ret a
  | Raise e => handler e
  end.

(** A value that is a float or [None]. *)
Definition pyval : Type := option float.

Definition is_None {A} (v : option A) : bool :=
  match v with None => true | Some _ => false end.

(** [bool(v)]: [None] and zero are false, every other float (NaN too) is
    true. *)
Definition truthy (v : pyval) : bool :=
  match v with
  | None => false
  | Some x => negb (PrimFloat.eqb x 0%float)
  end.

(** [v == 0]. *)
Definition eq_zero (v : pyval) : bool :=
  match v with
  | None => false
  | Some x => PrimFloat.eqb x 0%float
  end.

(** [float(v)]: raises on [None]. *)
Definition to_float (v : pyval) : py float :=
  match v with
  | Some x => Ret x
  | None => Raise TypeError
  end.

(** [x / y] on Python floats: a zero divisor raises. *)
Definition truediv (x y : float) : py float :=
  if PrimFloat.eqb y 0%float then Raise ZeroDivisionError
  else Ret (PrimFloat.div x y).

(** Arithmetic on values that may be [None]: [None] is not a number. *)
Definition arith (op : float -> float -> float) (a b : pyval) : py pyval :=
  match a, b with
  | Some x, Some y => Ret (Some (op x y))
  | _, _ => Raise TypeError
  end.

Definition py_abs (a : pyval) : py pyval :=
  match a with
  | Some x => Ret (Some (PrimFloat.abs x))
  | None => Raise TypeError
  end.

(** [len(l) == 0]. *)
Definition is_nil {A} (l : list A) : bool :=
  match l with [] => true | _ :: _ => false end.

(** A [dict] keeps insertion order; assigning to a key that is already
    there replaces the value and keeps the key's position. *)
Definition dict (V : Type) : Type := list (string * V).

Fixpoint dict_set {V} (k : string) (v : V) (d : dict V) : dict V :=
  match d with
  | [] => [(k, v)]
  | (k', v') :: d' =>
      if String.eqb k' k then (k', v) :: d' else (k', v') :: dict_set k v d'
  end.

(** [str.lower()], on ASCII letters. *)
Definition lower_ascii (c : ascii) : ascii :=
  let n := nat_of_ascii c in
  if (Nat.leb 65 n && Nat.leb n 90)%bool then ascii_of_nat (n + 32) else c.

Fixpoint lower (s : string) : string :=
  match s with
  | EmptyString => EmptyString
  | String c r => String (lower_ascii c) (lower r)
  end.

(** [sub in s]. *)
Fixpoint contains (sub s : string) : bool :=
  (String.prefix sub s
   || match s with
      | EmptyString => false
      | String _ r => contains sub r
      end)%bool.

End Py.
Import Py.

(** [x ← m; k] sequences two Python evaluations: an exception raised by
    [m] propagates. *)
#[global] Instance py_mbind : MBind py := fun _ _ k m => Py.bind m k.
#[global] Instance py_mret : MRet py := fun _ a => Ret a.

(** ** More of the Python runtime: string methods *)

Module PyStr.

(** [c.isspace()], for an ASCII character: tab, line feed, vertical tab, form feed,
    carriage return, the four separators 28 to 31, and the space. *)
Definition is_space (c : ascii) : bool :=
  let n := nat_of_ascii c in
  ((Nat.leb 9 n && Nat.leb n 13) || (Nat.leb 28 n && Nat.leb n 32))%bool.

Fixpoint lstrip (s : string) : string :=
  match s with
  | EmptyString => EmptyString
  | String c r => if is_space c then lstrip r else s
  end.

Fixpoint rstrip (s : string) : string :=
  match s with
  | EmptyString => EmptyString
  | String c r =>
      match rstrip r with
      | EmptyString => if is_space c then EmptyString else String c EmptyString
      | r' => String c r'
      end
  end.

(** [s.strip()]. *)
Definition strip (s : string) : string := rstrip (lstrip s).

(** [str.upper()], for ASCII characters. *)
Definition upper_ascii (c : ascii) : ascii :=
  let n := nat_of_ascii c in
  if (Nat.leb 97 n && Nat.leb n 122)%bool then ascii_of_nat (n - 32) else c.

Fixpoint upper (s : string) : string :=
  match s with
  | EmptyString => EmptyString
  | String c r => String (upper_ascii c) (upper r)
  end.

(** [s.isascii()]: every character is below 128. *)
Fixpoint isascii (s : string) : bool :=
  match s with
  | EmptyString => true
  | String c r => (Nat.ltb (nat_of_ascii c) 128 && isascii r)%bool
  end.

(** [s.startswith(p)]. *)
Definition startswith (p s : string) : bool := String.prefix p s.

(** [s.endswith(suffix)]. *)
Fixpoint endswith (suffix s : string) : bool :=
  (String.eqb s suffix
   || match s with
      | EmptyString => false
      | String _ r => endswith suffix r
      end)%bool.

End PyStr.
Import PyStr.

(** ** The part of pandas the code uses *)

Module Pandas.

(** A day, as its proleptic Gregorian ordinal ([date.toordinal()]). *)
Definition Timestamp : Type := Z.

(** [pd.Timestamp(year, 1, 1)]. *)
Definition year_start (year : Z) : Timestamp :=
  365 * (year - 1) + (year - 1) / 4 - (year - 1) / 100 + (year - 1) / 400 + 1.

(** A [Series] of floats indexed by dates, in its stored order. *)
Definition Series : Type := list (Timestamp * float).

Definition values (s : Series) : list float := map snd s.

Definition len (s : Series) : Z := Z.of_nat (length s).

Definition series_empty (s : Series) : bool := is_nil s.

(** [s.dropna()]. *)
Definition dropna (s : Series) : Series :=
  List.filter (fun p => negb (PrimFloat.is_nan (snd p))) s.

(** [s[s.index >= start]]. *)
Definition since (start : Timestamp) (s : Series) : Series :=
  List.filter (fun p => Z.leb start (fst p)) s.

(** [s.iloc[i]]: a negative position counts from the end; a position
    outside the series raises. *)
Definition iloc (s : Series) (i : Z) : py float :=
  let j := if Z.ltb i 0 then i + len s else i in
  if Z.ltb j 0 then Raise IndexError
  else match nth_error s (Z.to_nat j) with
       | Some p => Ret (snd p)
       | None => Raise IndexError
       end.

(** [s.sort_index(axis=0)]: ascending by date.  pandas does not promise an
    order among observations that have the same date (its default sort is
    not stable); here they keep the order they had. *)
Fixpoint insert_by_index (p : Timestamp * float) (s : Series) : Series :=
  match s with
  | [] => [p]
  | q :: r =>
      if Z.leb (fst p) (fst q) then p :: q :: r
      else q :: insert_by_index p r
  end.

Definition sort_index (s : Series) : Series :=
  fold_right insert_by_index [] s.

(** [s.tail(k)]. *)
Definition tail (k : nat) (s : Series) : Series :=
  skipn (length s - k)%nat s.

(** [s.sum()], accumulating from the left. *)
Definition sum (s : Series) : float :=
  fold_left PrimFloat.add (values s) 0%float.

(** A [DataFrame] of floats: one column per period-end date, one labelled
    row per line item.  Row labels are strings and distinct (a statement
    table maps a label to its row, and [df.loc[label]] is then a [Series])
    and every row has one cell per column. *)
Definition frame_shape (columns : list Timestamp)
           (rows : list (string * list float)) : bool :=
  (bool_decide (NoDup (map fst rows))
   && forallb (fun r => Nat.eqb (length (snd r)) (length columns)) rows)%bool.

Record DataFrame : Type := mkDataFrame {
  columns : list Timestamp;
  rows : list (string * list float);
  frame_ok : frame_shape columns rows = true
}.

(** [df.index]. *)
Definition index (df : DataFrame) : list string := map fst (rows df).

(** [df.empty]: one of the two axes has length 0. *)
Definition empty (df : DataFrame) : bool :=
  (is_nil (rows df) || is_nil (columns df))%bool.

(** [df.loc[label]]. *)
Definition loc (df : DataFrame) (label : string) : py Series :=
  match List.find (fun r => String.eqb (fst r) label) (rows df) with
  | Some r => Ret (combine (columns df) (snd r))
  | None => Raise KeyError
  end.

(** A frame of prices: one row per date, one column per ticker.  Column
    names are distinct and every column has one cell per date. *)
Record PriceFrame : Type := mkPriceFrame {
  px_index : list Timestamp;
  px_columns : list (string * list float);
  px_ok : frame_shape px_index px_columns = true
}.

(** [prices.empty]. *)
Definition px_empty (prices : PriceFrame) : bool :=
  (is_nil (px_index prices) || is_nil (px_columns prices))%bool.

(** [ticker in prices.columns]. *)
Definition has_column (prices : PriceFrame) (ticker : string) : bool :=
  existsb (fun c => String.eqb (fst c) ticker) (px_columns prices).

(** [prices[ticker]]. *)
Definition column (prices : PriceFrame) (ticker : string) : py Series :=
  match List.find (fun c => String.eqb (fst c) ticker) (px_columns prices) with
  | Some c => Ret (combine (px_index prices) (snd c))
  | None => Raise KeyError
  end.

End Pandas.
Import Pandas.

(** ** core/ratios.py *)

Module Ratios.

(** [{c.lower(): c for c in df.index.astype(str)}]: the row labels are
    strings, which [astype(str)] leaves as they are. *)
Definition lowered_index (labels : list string) : dict string :=
  fold_left (fun d c => dict_set (lower c) c d) labels [].

(** The inner loop of [_col_like]: the first entry whose key contains the
    lowered candidate. *)
Fixpoint first_row_like (name : string) (cols : dict string) : option string :=
  match cols with
  | [] => None
  | (k, orig) :: rest =>
      if contains (lower name) k then Some orig else first_row_like name rest
  end.

Fixpoint scan_candidates (candidates : list string) (cols : dict string)
  : option string :=
  match candidates with
  | [] => None
  | name :: rest =>
      match first_row_like name cols with
      | Some orig => Some orig
      | None => scan_candidates rest cols
      end
  end.

Definition _col_like (df : option DataFrame) (candidates : list string)
  : option string :=
  match df with
  | None => None
  | Some d =>
      if empty d then None
      else scan_candidates candidates (lowered_index (index d))
  end.

Definition ttm_sum (df_q : option DataFrame) (candidates : list string)
  : py pyval :=
  match df_q with
  | None => Ret None
  | Some d =>
      if empty d then Ret None
      else match _col_like df_q candidates with
           | None => Ret None
           | Some row =>
               r ← loc d row;
               let s := tail 4 (sort_index (dropna r)) in
               if series_empty s then Ret None else Ret (Some (sum s))
           end
  end.

Definition latest_value (df : option DataFrame) (candidates : list string)
  : py pyval :=
  match df with
  | None => Ret None
  | Some d =>
      if empty d then Ret None
      else match _col_like df candidates with
           | None => Ret None
           | Some row =>
               r ← loc d row;
               let s := sort_index (dropna r) in
               if series_empty s then Ret None
               else v ← iloc s (-1); Ret (Some v)
           end
  end.

Definition safe_div (a b : pyval) : py pyval :=
  try_except
    (if (is_None a || is_None b || eq_zero b)%bool then Ret None
     else x ← to_float a;
          y ← to_float b;
          q ← truediv x y;
          Ret (Some q))
    (fun _ => Ret None).

(** [d.get(k)] on a dictionary whose values may be [None]. *)
Definition get (d : gmap string pyval) (k : string) : pyval :=
  d !! k ≫= id.

Definition plain_keys : list string :=
  ["P/E (TTM)"; "EV/EBITDA (TTM)"; "P/B"; "P/S (TTM)"; "D/E";
   "Current Ratio"; "Interest Coverage"].

(** [float(v)] of a number. *)
Definition py_float (x : float) : float := x.

(** The body of the final loop over [out.items()]. *)
Definition tidy (k : string) (v : pyval) : pyval :=
  match v with
  | None => v
  | Some x =>
      if PrimFloat.is_finite x then
        if contains "Yield" k then Some (py_float x)
        else if existsb (String.eqb k) plain_keys then Some (py_float x)
        else if existsb (String.eqb k) ["ROE (TTM)"] then Some (py_float x)
        else v
      else v
  end.

Definition compute_core_ratios (price : pyval) (info : gmap string pyval)
           (stmts : gmap string DataFrame) : py (gmap string pyval) :=
  let out : gmap string pyval := ∅ in
  let mcap := get info "marketCap" in
  let shares := get info "sharesOutstanding" in
  (* Trailing PE *)
  let pe := get info "trailingPE" in
  pe ← (if (is_None pe && negb (is_None price) && truthy shares)%bool then
          net_income_ttm ← ttm_sum (stmts !! "income_q")
                                   ["net income"; "net income common"];
          eps_ttm ← safe_div net_income_ttm shares;
          safe_div price eps_ttm
        else Ret pe);
  let out := <["P/E (TTM)" := pe]> out in
  (* P/B *)
  let out := <["P/B" := get info "priceToBook"]> out in
  (* P/S (TTM) *)
  let ps := get info "priceToSalesTrailing12Months" in
  ps ← (if (is_None ps && negb (is_None price) && truthy shares)%bool then
          sales_ttm ← ttm_sum (stmts !! "income_q")
                              ["total revenue"; "revenue"; "sales"];
          cap ← arith PrimFloat.mul price shares;
          safe_div cap sales_ttm
        else Ret ps);
  let out := <["P/S (TTM)" := ps]> out in
  (* EV/EBITDA *)
  let ev_ebitda := get info "enterpriseToEbitda" in
  ev_ebitda ←
    (if is_None ev_ebitda then
       total_debt ← latest_value (stmts !! "bs_a")
                      ["total debt"; "long term debt"; "short long term debt"];
       cash ← latest_value (stmts !! "bs_a")
                           ["cash"; "cash and cash equivalents"];
       ev ← (if (negb (is_None mcap) && negb (is_None total_debt)
                 && negb (is_None cash))%bool then
               gross ← arith PrimFloat.add mcap total_debt;
               arith PrimFloat.sub gross cash
             else Ret None);
       ebitda_ttm ← ttm_sum (stmts !! "income_q") ["ebitda"];
       safe_div ev ebitda_ttm
     else Ret ev_ebitda);
  let out := <["EV/EBITDA (TTM)" := ev_ebitda]> out in
  (* FCF yield (TTM) *)
  let cf_q := stmts !! "cf_q" in
  fcf_ttm ←
    (match cf_q with
     | Some d =>
         if negb (empty d) then
           ocf_ttm ← ttm_sum cf_q ["total cash from operating activities";
                                    "operating cash flow"];
           capex_ttm ← ttm_sum cf_q ["capital expenditures"];
           if (negb (is_None ocf_ttm) && negb (is_None capex_ttm))%bool
           then arith PrimFloat.sub ocf_ttm capex_ttm
           else Ret None
         else Ret None
     | None => Ret None
     end);
  fcf_yield ← (if truthy mcap then safe_div fcf_ttm mcap else Ret None);
  let out := <["FCF Yield (TTM)" := fcf_yield]> out in
  (* ROE (TTM) *)
  equity ← latest_value (stmts !! "bs_a")
             ["total stockholder equity"; "total shareholders equity"];
  net_income_ttm ← ttm_sum (stmts !! "income_q")
                           ["net income"; "net income common"];
  roe ← safe_div net_income_ttm equity;
  let out := <["ROE (TTM)" := roe]> out in
  (* D/E *)
  total_debt ← latest_value (stmts !! "bs_a") ["total debt"; "long term debt"];
  de ← safe_div total_debt equity;
  let out := <["D/E" := de]> out in
  (* Current ratio *)
  current_assets ← latest_value (stmts !! "bs_a") ["total current assets"];
  current_liab ← latest_value (stmts !! "bs_a") ["total current liabilities"];
  cr ← safe_div current_assets current_liab;
  let out := <["Current Ratio" := cr]> out in
  (* Interest coverage *)
  let inc_q := stmts !! "income_q" in
  ebit_ttm ←
    (match inc_q with
     | Some d =>
         if negb (empty d) then ttm_sum inc_q ["ebit"; "operating income"]
         else Ret None
     | None => Ret None
     end);
  int_exp_ttm ← ttm_sum inc_q ["interest expense";
                               "interest expense non operating"];
  charge ← (if truthy int_exp_ttm then py_abs int_exp_ttm else Ret None);
  cover ← safe_div ebit_ttm charge;
  let out := <["Interest Coverage" := cover]> out in
  (* Dividend yield, beta *)
  let out := <["Dividend Yield" := get info "dividendYield"]> out in
  let out := <["Beta" := get info "beta"]> out in
  (* final loop *)
  Ret (map_imap (fun k v => Some (tidy k v)) out).

End Ratios.

(** ** core/data_source.py *)

Module DataSource.

Definition _normalize_ticker (t : string) : string :=
  let t := upper (strip t) in
  if (negb (endswith ".TO" t)
      && negb (existsb (String.eqb t) ["^GSPTSE"; "^GSPC"; "^GSPTSX"]))%bool
  then (t ++ ".TO")%string
  else t.

Definition wanted_keys : list string :=
  ["longName"; "shortName"; "sector"; "industry"; "longBusinessSummary";
   "website"; "marketCap"; "sharesOutstanding"; "trailingPE"; "forwardPE";
   "priceToBook"; "enterpriseToEbitda"; "dividendYield"; "beta"; "currency"].

(** [get_profile]; [get_info] is the outcome of the provider call
    [t.get_info()], whose values may be [None]. *)
Definition get_profile {V} (get_info : py (gmap string (option V)))
  : gmap string (option V) :=
  let info := match get_info with
              | Ret i => i
              | Raise _ => ∅
              end in
  fold_left (fun wanted k => <[k := info !! k ≫= id]> wanted) wanted_keys ∅.

End DataSource.

(** ** The system clock *)

Record datetime : Set := mkDatetime {
  dt_year : Z;
  dt_month : Z;
  dt_day : Z
}.

(** The ambient state a call can read: [datetime.now()] and
    [pd.Timestamp.today()] are both the clock's local date. *)
Record Clock : Set := mkClock { now : datetime }.

(** ** pages/1_Screener.py *)

Module Screener.

Definition ytd_return (clock : Clock) (series : Series) : py pyval :=
  if series_empty series then Ret None
  else
    let start_year := year_start (dt_year (now clock)) in
    let s := dropna (since start_year series) in
    if Z.ltb (len s) 2 then Ret None
    else last ← iloc s (-1);
         first ← iloc s 0;
         Ret (Some (last / first - 1)%float).

Definition pct_window (series : Series) (n : Z) : py pyval :=
  let s := dropna series in
  if Z.leb (len s) n then Ret None
  else last ← iloc s (-1);
       back ← iloc s (- n - 1);
       Ret (Some (last / back - 1)%float).

(** The universe table of the screener: one row per constituent, with its
    symbol, long name and sector (the last two may be missing). *)
Record Constituent : Type := mkConstituent {
  symbol : string;
  longName : option string;
  sector : option string
}.

(** [df.loc[df["symbol"] == t, field].values[0] if (df["symbol"] == t).any()
    else None]. *)
Definition first_of (df : list Constituent) (t : string)
           (field : Constituent -> option string) : option string :=
  match List.find (fun c => String.eqb (symbol c) t) df with
  | Some c => field c
  | None => None
  end.

Definition RET_1D : Z := 1.
Definition RET_1W : Z := 5.
Definition RET_1M : Z := 21.
Definition RET_3M : Z := 63.
Definition RET_6M : Z := 126.
Definition RET_1Y : Z := 252.

(** A row of the screener table. *)
Record Row : Type := mkRow {
  Ticker : string;
  Nom : option string;
  Secteur : option string;
  pct_1j : pyval;
  pct_1sem : pyval;
  pct_1mois : pyval;
  pct_3mois : pyval;
  pct_6mois : pyval;
  pct_1an : pyval;
  pct_YTD : pyval;
  dernier_prix : pyval
}.

(** The body of the loop [for t in prices.columns], [s] being
    [prices[t]]. *)
Definition row_of (clock : Clock) (df : list Constituent) (t : string)
           (s : Series) : py Row :=
  r1 ← pct_window s RET_1D;
  r5 ← pct_window s RET_1W;
  r21 ← pct_window s RET_1M;
  r63 ← pct_window s RET_3M;
  r126 ← pct_window s RET_6M;
  r252 ← pct_window s RET_1Y;
  rytd ← ytd_return clock s;
  last ← (if negb (series_empty (dropna s))
          then v ← iloc (dropna s) (-1); Ret (Some v)
          else Ret None);
  Ret (mkRow t (first_of df t longName) (first_of df t sector)
             r1 r5 r21 r63 r126 r252 rytd last).

(** The loop that fills [rows]. *)
Fixpoint rows_of (clock : Clock) (df : list Constituent)
         (columns : list (string * Series)) : py (list Row) :=
  match columns with
  | [] => Ret []
  | (t, s) :: rest =>
      r ← row_of clock df t s;
      rs ← rows_of clock df rest;
      Ret (r :: rs)
  end.

(** The rows of the screener for a frame of prices. *)
Definition screener_rows (clock : Clock) (df : list Constituent)
           (prices : PriceFrame) : py (list Row) :=
  rows_of clock df
    (map (fun c => (fst c, combine (px_index prices) (snd c)))
         (px_columns prices)).

End Screener.

(** ** pages/2_Fiche_Valeur.py *)

Module FicheValeur.

Definition _normalize_ticker (t : string) : string :=
  if String.eqb t EmptyString then t
  else
    let t := upper (strip t) in
    if startswith "^" t then t
    else if endswith ".TO" t then t else (t ++ ".TO")%string.

Definition _ret_days (series : Series) (n : Z) : py pyval :=
  let s := dropna series in
  if Z.leb (len s) n then Ret None
  else last ← iloc s (-1);
       back ← iloc s (- n - 1);
       Ret (Some (last / back - 1)%float).

Definition _ret_ytd (clock : Clock) (series : Series) : py pyval :=
  let s := dropna series in
  if series_empty s then Ret None
  else
    let start := year_start (dt_year (now clock)) in
    let s := since start s in
    if Z.ltb (len s) 2 then Ret None
    else last ← iloc s (-1);
         first ← iloc s 0;
         Ret (Some (last / first - 1)%float).

(** What [render_kpi_block] returns. *)
Record Kpi : Type := mkKpi {
  last_px : pyval;
  ret_1m : pyval;
  ret_ytd : pyval;
  ret_1y : pyval
}.

(** [render_kpi_block], without what it draws on the page: the profile
    [info] only feeds the drawing. *)
Definition render_kpi_block (clock : Clock) (ticker : string)
           (prices : PriceFrame) : py Kpi :=
  s ← (if (negb (px_empty prices) && has_column prices ticker)%bool
       then c ← column prices ticker; Ret (dropna c)
       else Ret []);
  last_px ← (if negb (series_empty s)
             then v ← iloc s (-1); Ret (Some v)
             else Ret None);
  r_1m ← _ret_days s 21;
  r_1y ← _ret_days s 252;
  r_ytd ← _ret_ytd clock s;
  Ret (mkKpi last_px r_1m r_ytd r_1y).

End FicheValeur.

(** ** The core operations in their process *)

Module Ambient.

(** A computation that may read the ambient state of the process it runs
    in; the system clock is the ambient state the code reads. *)
Record amb (A : Type) : Type := Amb { run : Clock -> py A }.
Arguments Amb {A} run.
Arguments run {A} a clock.

#[global] Instance amb_mret : MRet amb := fun _ a => Amb (fun _ => Ret a).
#[global] Instance amb_mbind : MBind amb :=
  fun _ _ k m => Amb (fun clock => a ← run m clock; run (k a) clock).

(** A call into the runtime or into pandas: it reads no ambient state. *)
Definition call {A} (m : py A) : amb A := Amb (fun _ => m).

(** [datetime.now()] and [pd.Timestamp.today()]. *)
Definition datetime_now : amb datetime := Amb (fun clock => Ret (now clock)).

(** [try: body / except Exception: handler]. *)
Definition try_except {A} (body : amb A) (handler : exn -> amb A) : amb A :=
  Amb (fun clock =>
         match run body clock with
         | Ret a => Ret a
         | Raise e => run (handler e) clock
         end).

(** *** core/ratios.py *)

Definition _col_like (df : option DataFrame) (candidates : list string)
  : amb (option string) :=
  match df with
  | None => mret None
  | Some d =>
      if empty d then mret None
      else mret (Ratios.scan_candidates candidates
                   (Ratios.lowered_index (index d)))
  end.

Definition ttm_sum (df_q : option DataFrame) (candidates : list string)
  : amb pyval :=
  match df_q with
  | None => mret None
  | Some d =>
      if empty d then mret None
      else row ← _col_like df_q candidates;
           match row with
           | None => mret None
           | Some row =>
               r ← call (loc d row);
               let s := tail 4 (sort_index (dropna r)) in
               if series_empty s then mret None else mret (Some (sum s))
           end
  end.

Definition latest_value (df : option DataFrame) (candidates : list string)
  : amb pyval :=
  match df with
  | None => mret None
  | Some d =>
      if empty d then mret None
      else row ← _col_like df candidates;
           match row with
           | None => mret None
           | Some row =>
               r ← call (loc d row);
               let s := sort_index (dropna r) in
               if series_empty s then mret None
               else v ← call (iloc s (-1)); mret (Some v)
           end
  end.

Definition safe_div (a b : pyval) : amb pyval :=
  try_except
    (if (is_None a || is_None b || eq_zero b)%bool then mret None
     else x ← call (to_float a);
          y ← call (to_float b);
          q ← call (truediv x y);
          mret (Some q))
    (fun _ => mret None).

Definition compute_core_ratios (price : pyval) (info : gmap string pyval)
           (stmts : gmap string DataFrame) : amb (gmap string pyval) :=
  let out : gmap string pyval := ∅ in
  let mcap := Ratios.get info "marketCap" in
  let shares := Ratios.get info "sharesOutstanding" in
  (* Trailing PE *)
  let pe := Ratios.get info "trailingPE" in
  pe ← (if (is_None pe && negb (is_None price) && truthy shares)%bool then
          net_income_ttm ← ttm_sum (stmts !! "income_q")
                                   ["net income"; "net income common"];
          eps_ttm ← safe_div net_income_ttm shares;
          safe_div price eps_ttm
        else mret pe);
  let out := <["P/E (TTM)" := pe]> out in
  (* P/B *)
  let out := <["P/B" := Ratios.get info "priceToBook"]> out in
  (* P/S (TTM) *)
  let ps := Ratios.get info "priceToSalesTrailing12Months" in
  ps ← (if (is_None ps && negb (is_None price) && truthy shares)%bool then
          sales_ttm ← ttm_sum (stmts !! "income_q")
                              ["total revenue"; "revenue"; "sales"];
          cap ← call (arith PrimFloat.mul price shares);
          safe_div cap sales_ttm
        else mret ps);
  let out := <["P/S (TTM)" := ps]> out in
  (* EV/EBITDA *)
  let ev_ebitda := Ratios.get info "enterpriseToEbitda" in
  ev_ebitda ←
    (if is_None ev_ebitda then
       total_debt ← latest_value (stmts !! "bs_a")
                      ["total debt"; "long term debt"; "short long term debt"];
       cash ← latest_value (stmts !! "bs_a")
                           ["cash"; "cash and cash equivalents"];
       ev ← (if (negb (is_None mcap) && negb (is_None total_debt)
                 && negb (is_None cash))%bool then
               gross ← call (arith PrimFloat.add mcap total_debt);
               call (arith PrimFloat.sub gross cash)
             else mret None);
       ebitda_ttm ← ttm_sum (stmts !! "income_q") ["ebitda"];
       safe_div ev ebitda_ttm
     else mret ev_ebitda);
  let out := <["EV/EBITDA (TTM)" := ev_ebitda]> out in
  (* FCF yield (TTM) *)
  let cf_q := stmts !! "cf_q" in
  fcf_ttm ←
    (match cf_q with
     | Some d =>
         if negb (empty d) then
           ocf_ttm ← ttm_sum cf_q ["total cash from operating activities";
                                    "operating cash flow"];
           capex_ttm ← ttm_sum cf_q ["capital expenditures"];
           if (negb (is_None ocf_ttm) && negb (is_None capex_ttm))%bool
           then call (arith PrimFloat.sub ocf_ttm capex_ttm)
           else mret None
         else mret None
     | None => mret None
     end);
  fcf_yield ← (if truthy mcap then safe_div fcf_ttm mcap else mret None);
  let out := <["FCF Yield (TTM)" := fcf_yield]> out in
  (* ROE (TTM) *)
  equity ← latest_value (stmts !! "bs_a")
             ["total stockholder equity"; "total shareholders equity"];
  net_income_ttm ← ttm_sum (stmts !! "income_q")
                           ["net income"; "net income common"];
  roe ← safe_div net_income_ttm equity;
  let out := <["ROE (TTM)" := roe]> out in
  (* D/E *)
  total_debt ← latest_value (stmts !! "bs_a") ["total debt"; "long term debt"];
  de ← safe_div total_debt equity;
  let out := <["D/E" := de]> out in
  (* Current ratio *)
  current_assets ← latest_value (stmts !! "bs_a") ["total current assets"];
  current_liab ← latest_value (stmts !! "bs_a") ["total current liabilities"];
  cr ← safe_div current_assets current_liab;
  let out := <["Current Ratio" := cr]> out in
  (* Interest coverage *)
  let inc_q := stmts !! "income_q" in
  ebit_ttm ←
    (match inc_q with
     | Some d =>
         if negb (empty d) then ttm_sum inc_q ["ebit"; "operating income"]
         else mret None
     | None => mret None
     end);
  int_exp_ttm ← ttm_sum inc_q ["interest expense";
                               "interest expense non operating"];
  charge ← (if truthy int_exp_ttm then call (py_abs int_exp_ttm)
            else mret None);
  cover ← safe_div ebit_ttm charge;
  let out := <["Interest Coverage" := cover]> out in
  (* Dividend yield, beta *)
  let out := <["Dividend Yield" := Ratios.get info "dividendYield"]> out in
  let out := <["Beta" := Ratios.get info "beta"]> out in
  (* final loop *)
  mret (map_imap (fun k v => Some (Ratios.tidy k v)) out).

(** *** pages/1_Screener.py *)

Definition ytd_return (series : Series) : amb pyval :=
  if series_empty series then mret None
  else
    today ← datetime_now;
    let start_year := year_start (dt_year today) in
    let s := dropna (since start_year series) in
    if Z.ltb (len s) 2 then mret None
    else last ← call (iloc s (-1));
         first ← call (iloc s 0);
         mret (Some (last / first - 1)%float).

Definition pct_window (series : Series) (n : Z) : amb pyval :=
  let s := dropna series in
  if Z.leb (len s) n then mret None
  else last ← call (iloc s (-1));
       back ← call (iloc s (- n - 1));
       mret (Some (last / back - 1)%float).

(** *** pages/2_Fiche_Valeur.py *)

Definition _ret_days (series : Series) (n : Z) : amb pyval :=
  let s := dropna series in
  if Z.leb (len s) n then mret None
  else last ← call (iloc s (-1));
       back ← call (iloc s (- n - 1));
       mret (Some (last / back - 1)%float).

Definition _ret_ytd (series : Series) : amb pyval :=
  let s := dropna series in
  if series_empty s then mret None
  else
    today ← datetime_now;
    let start := year_start (dt_year today) in
    let s := since start s in
    if Z.ltb (len s) 2 then mret None
    else last ← call (iloc s (-1));
         first ← call (iloc s 0);
         mret (Some (last / first - 1)%float).

End Ambient.

(** ** pages/3_Comparateur.py *)

Module Comparateur.
Definition _normalize_tsx (t : string) : string :=
  if String.eqb t EmptyString then t
  else
    let t := upper (strip t) in
    if startswith "^" t then t
    else if endswith ".TO" t then t else (t ++ ".TO")%string.
End Comparateur.

(** * Vocabulary of the properties *)

Import Ratios Screener FicheValeur.

(** Date order on observations. *)
Definition index_le (p q : Timestamp * float) : Prop := (fst p <= fst q)%Z.

(** The float at position [k] of a list of values. *)
Definition at_pos (d : list float) (k : nat) : float := nth k d PrimFloat.nan.

(** The quotient of two optional numbers, absent as soon as an operand is
    absent or the divisor is zero. *)
Definition quotient (a b : pyval) : pyval :=
  match a, b with
  | Some x, Some y =>
      if PrimFloat.eqb y 0%float then None else Some (x / y)%float
  | _, _ => None
  end.

(** The non-missing prices of a series, in order. *)
Definition observed (s : Series) : list float := values (dropna s).

(** The non-missing prices dated on or after January 1 of the clock's
    year. *)
Definition ytd_slice (clock : Clock) (s : Series) : list float :=
  values (dropna (since (year_start (dt_year (now clock))) s)).

(** The prices of a series that are numbers, in the order of the series:
    what is left once the missing observations (NaN) are removed. *)
Fixpoint non_missing (s : Series) : list float :=
  match s with
  | [] => []
  | (_, v) :: rest =>
      if PrimFloat.is_nan v then non_missing rest else v :: non_missing rest
  end.

(** The prices that are numbers among the observations dated [start] or
    later, in the order of the series. *)
Fixpoint non_missing_from (start : Timestamp) (s : Series) : list float :=
  match s with
  | [] => []
  | (t, v) :: rest =>
      if (Z.leb start t && negb (PrimFloat.is_nan v))%bool
      then v :: non_missing_from start rest
      else non_missing_from start rest
  end.

(** Last over first, minus one; absent below two points. *)
Definition first_to_last (d : list float) : pyval :=
  if Nat.ltb (length d) 2 then None
  else Some (at_pos d (length d - 1) / at_pos d 0 - 1)%float.

(** [sub] occurs in [s]. *)
Definition substring_of (sub s : string) : Prop :=
  exists pre post : string, s = (pre ++ sub ++ post)%string.

(** Case-insensitive substring match of a candidate against a row label. *)
Definition label_like (name label : string) : Prop :=
  substring_of (lower name) (lower label).

(** The value a call returns, [None] also standing for a raised exception;
    used together with [ttm_sum_returns] and [latest_value_returns]. *)
Definition returned (m : py pyval) : pyval :=
  match m with
  | Ret v => v
  | Raise _ => None
  end.

(** ** The ratio table, as the fallback rules describe it *)

Section RatioTable.

Variables (price : pyval) (info : gmap string pyval)
          (stmts : gmap string DataFrame).

(** An arithmetic operation on optional numbers, absent when an operand
    is. *)
Definition lift2 (op : float -> float -> float) (a b : pyval) : pyval :=
  match a, b with
  | Some x, Some y => Some (op x y)
  | _, _ => None
  end.

(** Trailing-twelve-month aggregate and latest value of a line item of the
    statement stored under [table]. *)
Definition ttm (table : string) (cands : list string) : pyval :=
  returned (ttm_sum (stmts !! table) cands).

Definition latest (table : string) (cands : list string) : pyval :=
  returned (latest_value (stmts !! table) cands).

(** A provider value when there is one, the fallback otherwise. *)
Definition provider_or (field : string) (fallback : pyval) : pyval :=
  match get info field with
  | Some v => Some v
  | None => fallback
  end.

Definition pe_value : pyval :=
  provider_or "trailingPE"
    (quotient price
       (quotient (ttm "income_q" ["net income"; "net income common"])
                 (get info "sharesOutstanding"))).

Definition ps_value : pyval :=
  provider_or "priceToSalesTrailing12Months"
    (if truthy (get info "sharesOutstanding") then
       quotient (lift2 PrimFloat.mul price (get info "sharesOutstanding"))
                (ttm "income_q" ["total revenue"; "revenue"; "sales"])
     else None).

Definition enterprise_value : pyval :=
  lift2 PrimFloat.sub
    (lift2 PrimFloat.add (get info "marketCap")
       (latest "bs_a" ["total debt"; "long term debt"; "short long term debt"]))
    (latest "bs_a" ["cash"; "cash and cash equivalents"]).

Definition ev_ebitda_value : pyval :=
  provider_or "enterpriseToEbitda"
    (quotient enterprise_value (ttm "income_q" ["ebitda"])).

Definition fcf_yield_value : pyval :=
  quotient
    (lift2 PrimFloat.sub
       (ttm "cf_q" ["total cash from operating activities";
                    "operating cash flow"])
       (ttm "cf_q" ["capital expenditures"]))
    (get info "marketCap").

Definition equity_value : pyval :=
  latest "bs_a" ["total stockholder equity"; "total shareholders equity"].

Definition roe_value : pyval :=
  quotient (ttm "income_q" ["net income"; "net income common"]) equity_value.

Definition de_value : pyval :=
  quotient (latest "bs_a" ["total debt"; "long term debt"]) equity_value.

Definition current_ratio_value : pyval :=
  quotient (latest "bs_a" ["total current assets"])
           (latest "bs_a" ["total current liabilities"]).

Definition interest_charge : pyval :=
  let i := ttm "income_q" ["interest expense";
                           "interest expense non operating"] in
  if truthy i then option_map PrimFloat.abs i else None.

Definition interest_coverage_value : pyval :=
  quotient (ttm "income_q" ["ebit"; "operating income"]) interest_charge.

Definition ratio_table : gmap string pyval :=
  <["Beta" := get info "beta"]>
  (<["Dividend Yield" := get info "dividendYield"]>
  (<["Interest Coverage" := interest_coverage_value]>
  (<["Current Ratio" := current_ratio_value]>
  (<["D/E" := de_value]>
  (<["ROE (TTM)" := roe_value]>
  (<["FCF Yield (TTM)" := fcf_yield_value]>
  (<["EV/EBITDA (TTM)" := ev_ebitda_value]>
  (<["P/S (TTM)" := ps_value]>
  (<["P/B" := get info "priceToBook"]>
  (<["P/E (TTM)" := pe_value]> ∅)))))))))).

End RatioTable.

(** The closed set of ratio names. *)
Definition ratio_names : list string :=
  ["P/E (TTM)"; "P/B"; "P/S (TTM)"; "EV/EBITDA (TTM)"; "FCF Yield (TTM)";
   "ROE (TTM)"; "D/E"; "Current Ratio"; "Interest Coverage";
   "Dividend Yield"; "Beta"].

Inductive page : Set := ScreenerPage | FichePage.

(** A call of one of the five core operations with its explicit
    arguments. *)
Inductive operation : Type :=
| WindowedReturn (p : page) (series : Series) (n : Z)
| YearToDateReturn (p : page) (series : Series)
| TtmSum (table : option DataFrame) (candidates : list string)
| LatestValue (table : option DataFrame) (candidates : list string)
| ComputeRatios (price : pyval) (info : gmap string pyval)
                (stmts : gmap string DataFrame).

Inductive outcome : Type :=
| Number (r : py pyval)
| RatioSet (r : py (gmap string pyval)).

(** Running a call in a process whose clock shows [clock]. *)
Definition invoke (clock : Clock) (op : operation) : outcome :=
  match op with
  | WindowedReturn ScreenerPage s n =>
      Number (Ambient.run (Ambient.pct_window s n) clock)
  | WindowedReturn FichePage s n =>
      Number (Ambient.run (Ambient._ret_days s n) clock)
  | YearToDateReturn ScreenerPage s =>
      Number (Ambient.run (Ambient.ytd_return s) clock)
  | YearToDateReturn FichePage s =>
      Number (Ambient.run (Ambient._ret_ytd s) clock)
  | TtmSum t c => Number (Ambient.run (Ambient.ttm_sum t c) clock)
  | LatestValue t c => Number (Ambient.run (Ambient.latest_value t c) clock)
  | ComputeRatios price info stmts =>
      RatioSet (Ambient.run (Ambient.compute_core_ratios price info stmts)
                            clock)
  end.

Definition reads_clock (op : operation) : bool :=
  match op with
  | YearToDateReturn _ _ => true
  | _ => false
  end.

(** [v] is the latest figure the table has for one of the line items
    [cands]: a cell that is a number, in a row whose label is like a
    candidate, no cell of that row that is a number being dated later. *)
Definition latest_figure (d : DataFrame) (cands : list string) (v : float)
  : Prop :=
  exists row cells t,
    (row, cells) ∈ rows d
    /\ (exists c, c ∈ cands /\ label_like c row)
    /\ (t, v) ∈ combine (columns d) cells
    /\ PrimFloat.is_nan v = false
    /\ (forall t' v', (t', v') ∈ combine (columns d) cells ->
                      PrimFloat.is_nan v' = false -> t' <= t).

(** [o] is the last of [seen] whose lower-cased form is [k]. *)
Definition last_spelling (seen : list string) (k o : string) : Prop :=
  exists before after,
    seen = before ++ o :: after
    /\ lower o = k
    /\ (forall l', l' ∈ after -> lower l' <> k).

(** [c] occurs in [s]. *)
Fixpoint mentions (c : ascii) (s : string) : bool :=
  match s with
  | EmptyString => false
  | String a r => (Ascii.eqb a c || mentions c r)%bool
  end.

(** The label or candidate has a space in it. *)
Definition spaced (s : string) : bool := mentions " " s.

(** No row label of the table has a space. *)
Definition space_free (df : option DataFrame) : Prop :=
  match df with
  | Some d => Forall (fun l => spaced l = false) (index d)
  | None => True
  end.

(** What the provider returned, nothing when its call failed. *)
Definition provider_info {V} (get_info : py (gmap string (option V)))
  : gmap string (option V) :=
  match get_info with
  | Ret i => i
  | Raise _ => ∅
  end.

(** No blank at either end. *)
Definition trimmed (s : string) : Prop := lstrip s = s /\ rstrip s = s.

(** A ticker in normal form: no blank at either end, no lower-case
    letter. *)
Definition clean (s : string) : Prop := trimmed s /\ upper s = s.

(** The index symbols the data source knows. *)
Definition known_indices : list string := ["^GSPTSE"; "^GSPC"; "^GSPTSX"].

(** The returns of a row are available from the shortest window up. *)
Definition nested (r : Row) : Prop :=
  (pct_1an r <> None -> pct_6mois r <> None)
  /\ (pct_6mois r <> None -> pct_3mois r <> None)
  /\ (pct_3mois r <> None -> pct_1mois r <> None)
  /\ (pct_1mois r <> None -> pct_1sem r <> None)
  /\ (pct_1sem r <> None -> pct_1j r <> None)
  /\ (pct_YTD r <> None -> pct_1j r <> None)
  /\ (pct_1j r <> None -> dernier_prix r <> None).

(** ** Sample inputs *)

(** A table with a row and no period column. *)
Definition no_period_table : DataFrame :=
  mkDataFrame [] [("Net Income", [])] eq_refl.

(** An income statement with two line items over four quarters. *)
Definition two_line_table : DataFrame :=
  mkDataFrame [739251; 739159; 739067; 738976]
              [("Total Revenue", [400; 300; 200; 100]%float);
               ("Net Income", [40; 60; 50; 100]%float)]
              eq_refl.

(** Four quarterly columns, of which the matched row has a value in three
    only. *)
Definition three_quarter_table : DataFrame :=
  mkDataFrame [739251; 739159; 739067; 738976]
              [("Total Revenue", [400; 300; 200; 100]%float);
               ("Net Income", [30; PrimFloat.nan; 20; 10]%float)]
              eq_refl.

(** A profile without [trailingPE] and with 100 shares; quarterly net
    income 100, 50, 60, 40. *)
Definition shares_only : gmap string pyval :=
  {[ "sharesOutstanding" := Some 100%float ]}.

Definition income_only : gmap string DataFrame :=
  {[ "income_q" := two_line_table ]}.

(** A profile that only has a beta. *)
Definition beta_only : gmap string pyval := {[ "beta" := Some 1.25%float ]}.

(** Two trading days of January 2024. *)
Definition january_2024 : Series :=
  [(738900, 100%float); (738901, 110%float)].

Definition mid_2024 : Clock := mkClock (mkDatetime 2024 6 14).
Definition mid_2025 : Clock := mkClock (mkDatetime 2025 6 13).
Definition late_2024 : Clock := mkClock (mkDatetime 2024 12 20).

(** Five consecutive trading days. *)
Definition five_days : Series :=
  [(738900, 100%float); (738901, 102%float); (738902, 101%float);
   (738903, 105%float); (738904, 110%float)].

(** The same prices with a gap in the dates and a missing observation in
    between. *)
Definition five_days_with_gaps : Series :=
  [(738900, 100%float); (738907, 102%float); (738908, PrimFloat.nan);
   (738921, 101%float); (738950, 105%float); (738951, 110%float)].

(** December 31, 2023 (738885), January 1, 2024 (738886), a session of
    January 2024 without a price and the session after it. *)
Definition around_new_year : Series :=
  [(738885, 90%float); (738886, 100%float); (738900, PrimFloat.nan);
   (738901, 110%float)].

(** December 31, 2023, January 1, 2024 and a session without a price. *)
Definition one_point_in_2024 : Series :=
  [(738885, 90%float); (738886, 100%float); (738900, PrimFloat.nan)].

(** An observation of 2023 followed by the two of January 2024. *)
Definition across_new_year : Series :=
  [(738800, 95%float); (738900, 100%float); (738901, 110%float)].

(** One older observation. *)
Definition one_older_day : Series := [(738890, 90%float)].

(** An annual balance sheet with the years 2024 and 2023, newest first. *)
Definition annual_balance_sheet : DataFrame :=
  mkDataFrame [739251; 738885]
              [("Total Debt", [300; 200]%float);
               ("Cash And Cash Equivalents", [100; 150]%float);
               ("Total Stockholder Equity", [800; 700]%float)]
              eq_refl.

(** A quarterly balance sheet with other figures. *)
Definition quarterly_balance_sheet : DataFrame :=
  mkDataFrame [739251; 739159]
              [("Total Debt", [999; 998]%float);
               ("Cash And Cash Equivalents", [7; 8]%float)]
              eq_refl.

(** A quarterly income statement with an EBITDA line, newest first. *)
Definition ebitda_table : DataFrame :=
  mkDataFrame [739251; 739159; 739067; 738976]
              [("Total Revenue", [400; 300; 200; 100]%float);
               ("EBITDA", [90; 60; 50; 40]%float)]
              eq_refl.

Definition enterprise_statements : gmap string DataFrame :=
  {[ "bs_a" := annual_balance_sheet;
     "bs_q" := quarterly_balance_sheet;
     "income_q" := ebitda_table ]}.

(** A profile with a market cap of 1000 and no [enterpriseToEbitda]. *)
Definition market_cap_only : gmap string pyval :=
  {[ "marketCap" := Some 1000%float ]}.

(** A table where two row labels differ by case only. *)
Definition two_spellings_table : DataFrame :=
  mkDataFrame [739251; 739159]
              [("Net Income", [1; 2]%float);
               ("Total Revenue", [5; 6]%float);
               ("NET INCOME", [3; 4]%float)]
              eq_refl.

(** A table whose row labels are written without spaces. *)
Definition camel_case_table : DataFrame :=
  mkDataFrame [739251; 739159; 739067; 738976]
              [("TotalRevenue", [400; 300; 200; 100]%float);
               ("NetIncome", [40; 60; 50; 100]%float)]
              eq_refl.

Definition camel_case_statements : gmap string DataFrame :=
  {[ "income_q" := camel_case_table ]}.

(** The statements of [income_only] with an annual income statement
    added. *)
Definition income_and_annual : gmap string DataFrame :=
  <["income_a" := two_line_table]> income_only.

(** * Properties *)

(** ** Positional access *)

Section Positions.

Lemma len_values (s : Series) : Z.of_nat (length (values s)) = len s.
Proof. unfold values, len. now rewrite length_map. Qed.

Lemma iloc_front (s : Series) (i : Z) :
  0 <= i < len s -> iloc s i = Ret (at_pos (values s) (Z.to_nat i)).
Proof.
  intros [Hlo Hhi]. unfold iloc, at_pos, values.
  destruct (Z.ltb_spec i 0) as [Hneg|_]; [lia|].
  destruct (Z.ltb_spec i 0) as [Hneg|_]; [lia|].
  destruct (nth_error s (Z.to_nat i)) as [p|] eqn:E.
  - f_equal. symmetry. apply nth_error_nth.
    rewrite nth_error_map, E. reflexivity.
  - apply nth_error_None in E. unfold len in Hhi. lia.
Qed.

Lemma iloc_back (s : Series) (i : Z) :
  - len s <= i < 0 ->
  iloc s i = Ret (at_pos (values s) (Z.to_nat (i + len s))).
Proof.
  intros [Hlo Hhi]. unfold iloc, at_pos, values.
  destruct (Z.ltb_spec i 0) as [_|Hpos]; [|lia].
  destruct (Z.ltb_spec (i + len s) 0) as [Hneg|_]; [lia|].
  destruct (nth_error s (Z.to_nat (i + len s))) as [p|] eqn:E.
  - f_equal. symmetry. apply nth_error_nth.
    rewrite nth_error_map, E. reflexivity.
  - apply nth_error_None in E. unfold len in *. lia.
Qed.

(** Positional access reads the values only, never the dates. *)
Lemma iloc_values (s t : Series) (i : Z) :
  values s = values t -> iloc s i = iloc t i.
Proof.
  intros E.
  assert (L : len s = len t) by (rewrite <- !len_values; now rewrite E).
  destruct (Z_lt_le_dec i 0) as [Hneg|Hpos].
  - destruct (Z_le_gt_dec (- len s) i) as [Hin|Hout].
    + rewrite !iloc_back by lia. now rewrite E, L.
    + unfold iloc. rewrite <- L.
      destruct (Z.ltb_spec i 0); [|lia].
      destruct (Z.ltb_spec (i + len s) 0); [reflexivity|lia].
  - destruct (Z_lt_le_dec i (len s)) as [Hin|Hout].
    + rewrite !iloc_front by lia. now rewrite E.
    + unfold iloc.
      destruct (Z.ltb_spec i 0); [lia|].
      destruct (Z.ltb_spec i 0); [lia|].
      assert (N1 : nth_error s (Z.to_nat i) = None)
        by (apply nth_error_None; unfold len in *; lia).
      assert (N2 : nth_error t (Z.to_nat i) = None)
        by (apply nth_error_None; unfold len in *; lia).
      now rewrite N1, N2.
Qed.

End Positions.

(** [py_step] runs the sequencing of calls that have returned. *)
Ltac py_step := unfold mbind, py_mbind, Py.bind; cbn beta iota.

(** ** Division that cannot fail *)

Section SafeDiv.

Lemma safe_div_quotient (a b : pyval) : safe_div a b = Ret (quotient a b).
Proof.
  unfold safe_div, quotient.
  destruct a as [x|], b as [y|]; cbn; try reflexivity.
  unfold truediv. destruct (PrimFloat.eqb y 0); reflexivity.
Qed.

(** C9: [safe_div] never raises; it returns [None] when the numerator is
    absent, when the denominator is absent and when the denominator is zero
    (of either sign), and the float quotient [x / y] otherwise. *)
Theorem safe_div_total (a b : pyval) :
  safe_div a b
  = Ret (match a, b with
         | None, _ => None
         | _, None => None
         | Some x, Some y =>
             if PrimFloat.eqb y 0%float then None else Some (x / y)%float
         end).
Proof.
  rewrite safe_div_quotient. unfold quotient.
  destruct a, b; reflexivity.
Qed.

End SafeDiv.

(** ** Trading-day windows *)

Section Windows.

Lemma ret_days_is_pct_window (s : Series) (n : Z) :
  _ret_days s n = pct_window s n.
Proof. reflexivity. Qed.

Lemma pct_window_short (s : Series) (n : Z) :
  Z.of_nat (length (observed s)) <= n -> pct_window s n = Ret None.
Proof.
  unfold observed. rewrite len_values. intros H. unfold pct_window.
  destruct (Z.leb_spec (len (dropna s)) n); [reflexivity | lia].
Qed.

Lemma pct_window_long (s : Series) (n : Z) :
  0 <= n < Z.of_nat (length (observed s)) ->
  pct_window s n
  = Ret (Some (at_pos (observed s) (length (observed s) - 1)
               / at_pos (observed s) (length (observed s) - 1 - Z.to_nat n)
               - 1)%float).
Proof.
  unfold observed. intros H.
  assert (L := len_values (dropna s)).
  unfold pct_window.
  destruct (Z.leb_spec (len (dropna s)) n); [lia|].
  rewrite (iloc_back _ (-1)) by lia.
  rewrite (iloc_back _ (- n - 1)) by lia.
  py_step.
  replace (Z.to_nat (-1 + len (dropna s)))
    with (length (values (dropna s)) - 1)%nat by lia.
  replace (Z.to_nat (- n - 1 + len (dropna s)))
    with (length (values (dropna s)) - 1 - Z.to_nat n)%nat by lia.
  reflexivity.
Qed.

Lemma observed_non_missing (s : Series) : observed s = non_missing s.
Proof.
  unfold observed, values, dropna.
  induction s as [|[t v] s IH]; [reflexivity|].
  cbn [List.filter non_missing snd].
  destruct (PrimFloat.is_nan v); cbn [negb map snd]; now rewrite IH.
Qed.

(** C3: for a window of [n >= 0] trading days, the windowed return is
    undefined when at most [n] observations remain once the missing ones
    are removed; otherwise it is last / (value [n] positions before the
    last) - 1 over the remaining observations, which with exactly [n + 1]
    of them is last / first - 1.  Both pages compute the same function. *)
Theorem pct_window_spec (s : Series) (n : Z) :
  0 <= n ->
  let d := non_missing s in
  let k := length d in
  (Z.of_nat k <= n -> pct_window s n = Ret None)
  /\ (n < Z.of_nat k ->
      pct_window s n
      = Ret (Some (at_pos d (k - 1) / at_pos d (k - 1 - Z.to_nat n) - 1)%float))
  /\ (Z.of_nat k = n + 1 ->
      pct_window s n
      = Ret (Some (at_pos d (k - 1) / at_pos d 0 - 1)%float))
  /\ _ret_days s n = pct_window s n.
Proof.
  intros Hn d k. subst d k. rewrite <- observed_non_missing.
  split; [apply pct_window_short|].
  split; [intros H; apply pct_window_long; lia|].
  split; [|reflexivity].
  intros H. rewrite pct_window_long by lia.
  replace (length (observed s) - 1 - Z.to_nat n)%nat with 0%nat by lia.
  reflexivity.
Qed.

(** C10: two series with the same ordered non-missing values have the same
    windowed return for every window, whatever their dates are. *)
Theorem pct_window_ignores_dates (s t : Series) (n : Z) :
  observed s = observed t ->
  pct_window s n = pct_window t n /\ _ret_days s n = _ret_days t n.
Proof.
  unfold observed. intros E.
  assert (L : len (dropna s) = len (dropna t))
    by (rewrite <- !len_values; now rewrite E).
  assert (W : pct_window s n = pct_window t n).
  { unfold pct_window. rewrite L.
    rewrite (iloc_values (dropna s) (dropna t) (-1) E).
    rewrite (iloc_values (dropna s) (dropna t) (- n - 1) E).
    reflexivity. }
  split; [exact W | rewrite !ret_days_is_pct_window; exact W].
Qed.

End Windows.

(** ** Year to date *)

Section YearToDate.

Lemma filter_swap {A} (p q : A -> bool) (l : list A) :
  List.filter p (List.filter q l) = List.filter q (List.filter p l).
Proof.
  induction l as [|a l IH]; cbn; [reflexivity|].
  destruct (p a) eqn:Hp, (q a) eqn:Hq; cbn; rewrite ?Hp, ?Hq, IH; reflexivity.
Qed.

Lemma span_return (s : Series) :
  (if Z.ltb (len s) 2 then Ret None
   else last ← iloc s (-1); first ← iloc s 0;
        Ret (Some (last / first - 1)%float))
  = Ret (first_to_last (values s)).
Proof.
  unfold first_to_last. assert (L := len_values s).
  destruct (Z.ltb_spec (len s) 2), (Nat.ltb_spec (length (values s)) 2);
    try lia; [reflexivity|].
  rewrite (iloc_back _ (-1)) by lia. rewrite (iloc_front _ 0) by lia.
  py_step.
  replace (Z.to_nat (-1 + len s)) with (length (values s) - 1)%nat by lia.
  reflexivity.
Qed.

Lemma ytd_return_slice (clock : Clock) (s : Series) :
  ytd_return clock s = Ret (first_to_last (ytd_slice clock s)).
Proof.
  unfold ytd_return, ytd_slice.
  destruct s as [|p s]; [reflexivity|].
  cbn [series_empty is_nil]. apply span_return.
Qed.

Lemma ret_ytd_slice (clock : Clock) (s : Series) :
  _ret_ytd clock s = Ret (first_to_last (ytd_slice clock s)).
Proof.
  unfold _ret_ytd, ytd_slice.
  replace (dropna (since (year_start (dt_year (now clock))) s))
    with (since (year_start (dt_year (now clock))) (dropna s))
    by apply filter_swap.
  generalize (dropna s) as d. intros [|p r]; [reflexivity|].
  cbn [series_empty is_nil]. apply span_return.
Qed.

Lemma ytd_slice_non_missing_from (clock : Clock) (s : Series) :
  ytd_slice clock s = non_missing_from (year_start (dt_year (now clock))) s.
Proof.
  unfold ytd_slice, values, dropna, since.
  generalize (year_start (dt_year (now clock))) as start. intros start.
  induction s as [|[t v] s IH]; [reflexivity|].
  cbn [List.filter non_missing_from fst].
  destruct (Z.leb start t); cbn [andb List.filter snd]; [|exact IH].
  destruct (PrimFloat.is_nan v); cbn [negb map snd]; now rewrite IH.
Qed.

(** C7: the year-to-date return keeps the observations dated on or after
    January 1 of the clock's calendar year; with fewer than two
    non-missing points among them it is [None], otherwise it is the last
    of these points over the first, minus one.  Both pages agree. *)
Theorem ytd_return_spec (clock : Clock) (s : Series) :
  let slice := non_missing_from (year_start (dt_year (now clock))) s in
  ytd_return clock s
  = Ret (if Nat.ltb (length slice) 2 then None
         else Some (at_pos slice (length slice - 1) / at_pos slice 0 - 1)%float)
  /\ _ret_ytd clock s = ytd_return clock s.
Proof.
  cbv zeta. rewrite <- ytd_slice_non_missing_from.
  rewrite ret_ytd_slice, ytd_return_slice. split; reflexivity.
Qed.

End YearToDate.

(** ** Substrings and lower case *)

Section Substrings.

Lemma prefix_append (a s : string) :
  String.prefix a s = true <-> exists post, s = (a ++ post)%string.
Proof.
  revert s. induction a as [|c a IH]; intros s.
  - split; [intros _; now exists s | intros _; now destruct s].
  - destruct s as [|c' s]; cbn.
    + split; [discriminate | intros [post H]; discriminate].
    + destruct (Ascii.ascii_dec c c') as [->|Hc].
      * rewrite IH. split; intros [post H]; exists post.
        -- now rewrite H.
        -- now injection H.
      * split; [discriminate|]. intros [post H]. injection H as E _.
        now destruct Hc.
Qed.

Lemma contains_substring (sub s : string) :
  contains sub s = true <-> substring_of sub s.
Proof.
  split.
  - induction s as [|c s IH]; cbn [contains]; rewrite orb_true_iff.
    + intros [H|H]; [|discriminate].
      apply prefix_append in H as [post ->]. now exists EmptyString, post.
    + intros [H|H].
      * apply prefix_append in H as [post ->]. now exists EmptyString, post.
      * destruct (IH H) as (pre & post & ->).
        now exists (String c pre), post.
  - intros (pre & post & ->). induction pre as [|c pre IH].
    + change (contains sub (sub ++ post)%string = true).
      assert (P : String.prefix sub (sub ++ post) = true)
        by (apply prefix_append; now exists post).
      destruct (sub ++ post)%string; cbn [contains]; rewrite P; reflexivity.
    + change (contains sub (String c (pre ++ sub ++ post)) = true).
      cbn [contains]. rewrite IH. apply orb_true_r.
Qed.

Lemma label_like_contains (name label : string) :
  contains (lower name) (lower label) = true <-> label_like name label.
Proof. apply contains_substring. Qed.

End Substrings.

(** ** Resolving a line item *)

Section LineItems.

Lemma dict_set_elem {V} (k k0 : string) (v v0 : V) (d : dict V) :
  (k, v) ∈ dict_set k0 v0 d -> (k, v) = (k0, v0) \/ (k, v) ∈ d.
Proof.
  induction d as [|[k' v'] d IH]; cbn.
  - rewrite elem_of_cons, elem_of_nil. tauto.
  - destruct (String.eqb_spec k' k0) as [->|Hne];
      rewrite !elem_of_cons; intros [H|H]; auto.
    destruct (IH H); auto.
Qed.

Lemma dict_set_key {V} (k0 : string) (v0 : V) (d : dict V) :
  (k0, v0) ∈ dict_set k0 v0 d.
Proof.
  induction d as [|[k' v'] d IH]; cbn.
  - apply elem_of_cons; now left.
  - destruct (String.eqb_spec k' k0) as [->|Hne]; apply elem_of_cons; auto.
Qed.

Lemma dict_set_keeps_keys {V} (k k0 : string) (v v0 : V) (d : dict V) :
  (k, v) ∈ d -> exists v', (k, v') ∈ dict_set k0 v0 d.
Proof.
  induction d as [|[k' v'] d IH]; cbn.
  - intros H. now apply elem_of_nil in H.
  - rewrite elem_of_cons. intros [H|H].
    + injection H as -> ->.
      destruct (String.eqb_spec k' k0) as [->|Hne].
      * exists v0. apply elem_of_cons; now left.
      * exists v'. apply elem_of_cons; now left.
    + destruct (IH H) as [w Hw].
      destruct (String.eqb_spec k' k0) as [->|Hne].
      * exists v. apply elem_of_cons; now right.
      * exists w. apply elem_of_cons; now right.
Qed.

(** Every entry of the lowered index maps the lower-cased form of a row
    label to that label. *)
Lemma lowered_fold_entries (labels : list string) (d0 : dict string)
      (k o : string) :
  (k, o) ∈ fold_left (fun d c => dict_set (lower c) c d) labels d0 ->
  (k, o) ∈ d0 \/ (o ∈ labels /\ k = lower o).
Proof.
  revert d0. induction labels as [|c labels IH]; intros d0; cbn.
  - auto.
  - intros H. destruct (IH _ H) as [H1|[H1 H2]].
    + destruct (dict_set_elem _ _ _ _ _ H1) as [E|E]; [|auto].
      injection E as -> ->. right. split; [apply elem_of_cons; auto | easy].
    + right. split; [apply elem_of_cons; auto | easy].
Qed.

Lemma lowered_fold_keys (labels : list string) (d0 : dict string) (k : string) :
  (exists o, (k, o) ∈ d0) \/ (exists l, l ∈ labels /\ k = lower l) ->
  exists o, (k, o) ∈ fold_left (fun d c => dict_set (lower c) c d) labels d0.
Proof.
  revert d0. induction labels as [|c labels IH]; intros d0; cbn.
  - intros [H|(l & H & _)]; [exact H | now apply elem_of_nil in H].
  - intros [[o H]|(l & H & ->)]; apply IH.
    + left. eapply dict_set_keeps_keys, H.
    + apply elem_of_cons in H as [->|H].
      * left. exists c. apply dict_set_key.
      * right. now exists l.
Qed.

Lemma lowered_index_entry (labels : list string) (k o : string) :
  (k, o) ∈ lowered_index labels -> o ∈ labels /\ k = lower o.
Proof.
  intros H. destruct (lowered_fold_entries _ _ _ _ H) as [E|E]; [|exact E].
  now apply elem_of_nil in E.
Qed.

Lemma lowered_index_key (labels : list string) (l : string) :
  l ∈ labels -> exists o, (lower l, o) ∈ lowered_index labels.
Proof. intros H. apply lowered_fold_keys. right. now exists l. Qed.

Lemma first_row_like_Some (name : string) (cols : dict string) (o : string) :
  first_row_like name cols = Some o ->
  exists k, (k, o) ∈ cols /\ contains (lower name) k = true.
Proof.
  induction cols as [|[k v] cols IH]; cbn; [discriminate|].
  destruct (contains (lower name) k) eqn:E.
  - intros [= ->]. exists k. split; [apply elem_of_cons; auto | exact E].
  - intros H. destruct (IH H) as (k' & H1 & H2).
    exists k'. split; [apply elem_of_cons; auto | exact H2].
Qed.

Lemma first_row_like_None (name : string) (cols : dict string) :
  first_row_like name cols = None ->
  forall k o, (k, o) ∈ cols -> contains (lower name) k = false.
Proof.
  induction cols as [|[k v] cols IH]; cbn.
  - intros _ k o H. now apply elem_of_nil in H.
  - destruct (contains (lower name) k) eqn:E; [discriminate|].
    intros H k' o' Hin. apply elem_of_cons in Hin as [[= -> ->]|Hin]; eauto.
Qed.

Lemma scan_candidates_Some (cands : list string) (cols : dict string)
      (o : string) :
  scan_candidates cands cols = Some o ->
  exists pre name post,
    cands = pre ++ name :: post
    /\ (forall c, c ∈ pre -> first_row_like c cols = None)
    /\ first_row_like name cols = Some o.
Proof.
  induction cands as [|c cands IH]; cbn; [discriminate|].
  destruct (first_row_like c cols) as [o'|] eqn:E.
  - intros [= ->]. exists [], c, cands. repeat split; [|exact E].
    intros c' H. now apply elem_of_nil in H.
  - intros H. destruct (IH H) as (pre & name & post & -> & H1 & H2).
    exists (c :: pre), name, post. repeat split; [|exact H2].
    intros c' Hc. apply elem_of_cons in Hc as [->|Hc]; auto.
Qed.

Lemma scan_candidates_None (cands : list string) (cols : dict string) :
  scan_candidates cands cols = None ->
  forall c, c ∈ cands -> first_row_like c cols = None.
Proof.
  induction cands as [|c cands IH]; cbn.
  - intros _ c H. now apply elem_of_nil in H.
  - destruct (first_row_like c cols) as [o'|] eqn:E; [discriminate|].
    intros H c' Hc. apply elem_of_cons in Hc as [->|Hc]; auto.
Qed.

(** No row label is like the candidate exactly when the inner loop finds
    nothing. *)
Lemma first_row_like_no_row (name : string) (labels : list string) :
  first_row_like name (lowered_index labels) = None <->
  (forall l, l ∈ labels -> ~ label_like name l).
Proof.
  split.
  - intros H l Hl Hlike.
    destruct (lowered_index_key labels l Hl) as [o Ho].
    apply (first_row_like_None _ _ H) in Ho.
    apply label_like_contains in Hlike. congruence.
  - intros H. destruct (first_row_like _ _) as [o|] eqn:E; [|reflexivity].
    apply first_row_like_Some in E as (k & Hk & Hc).
    apply lowered_index_entry in Hk as [Ho ->].
    apply label_like_contains in Hc. now destruct (H o Ho).
Qed.

Lemma first_row_like_row (name : string) (labels : list string) (o : string) :
  first_row_like name (lowered_index labels) = Some o ->
  o ∈ labels /\ label_like name o.
Proof.
  intros E. apply first_row_like_Some in E as (k & Hk & Hc).
  apply lowered_index_entry in Hk as [Ho ->].
  split; [exact Ho | now apply label_like_contains].
Qed.

End LineItems.

Section ColLike.

Lemma col_like_in_index (d : DataFrame) (cands : list string) (row : string) :
  _col_like (Some d) cands = Some row -> row ∈ index d.
Proof.
  unfold _col_like. destruct (empty d); [discriminate|]. intros H.
  apply scan_candidates_Some in H as (pre & name & post & _ & _ & H).
  now apply first_row_like_row in H.
Qed.

(** C5, for a table that has at least one row and one column: the match is
    a case-insensitive substring match and the candidate order decides.  If
    some candidate is like some row label, the label returned is a row of
    the table that is like the earliest candidate having any such row;
    if no candidate is like any row label the result is [None]. *)
Theorem col_like_first_candidate (d : DataFrame) (cands : list string) :
  empty d = false ->
  ((exists c l, c ∈ cands /\ l ∈ index d /\ label_like c l) ->
   exists l pre name post,
     _col_like (Some d) cands = Some l
     /\ l ∈ index d
     /\ cands = pre ++ name :: post
     /\ label_like name l
     /\ (forall c l', c ∈ pre -> l' ∈ index d -> ~ label_like c l'))
  /\ ((forall c l, c ∈ cands -> l ∈ index d -> ~ label_like c l) ->
      _col_like (Some d) cands = None).
Proof.
  intros Hne. unfold _col_like. rewrite Hne.
  destruct (scan_candidates cands (lowered_index (index d))) as [o|] eqn:E.
  - apply scan_candidates_Some in E as (pre & name & post & -> & Hpre & Hname).
    apply first_row_like_row in Hname as [Ho Hlike]. split.
    + intros _. exists o, pre, name, post. repeat split; auto.
      intros c l' Hc. apply first_row_like_no_row. auto.
    + intros Hnone. destruct (Hnone name o); auto.
      apply elem_of_app. right. apply elem_of_cons. now left.
  - split; [|reflexivity].
    intros (c & l & Hc & Hl & Hlike).
    pose proof (scan_candidates_None _ _ E c Hc) as Hrow.
    now destruct (proj1 (first_row_like_no_row _ _) Hrow l Hl).
Qed.

(** C5 as stated fails on a table without columns: the candidate is like a
    row label, and nothing is returned. *)
Lemma col_like_no_period_table :
  (exists c l, c ∈ ["net income"] /\ l ∈ index no_period_table
               /\ label_like c l)
  /\ _col_like (Some no_period_table) ["net income"] = None.
Proof.
  split; [|reflexivity].
  exists "net income", "Net Income". repeat split.
  - apply elem_of_cons; now left.
  - apply elem_of_cons; now left.
  - exists EmptyString, EmptyString. reflexivity.
Qed.

Lemma col_like_first_candidate_witness :
  empty two_line_table = false
  /\ exists l pre name post,
       _col_like (Some two_line_table) ["income"; "total"] = Some l
       /\ l ∈ index two_line_table
       /\ ["income"; "total"] = pre ++ name :: post
       /\ label_like name l
       /\ (forall c l', c ∈ pre -> l' ∈ index two_line_table ->
                        ~ label_like c l').
Proof.
  split; [reflexivity|].
  apply (proj1 (col_like_first_candidate two_line_table ["income"; "total"]
                                         eq_refl)).
  exists "income", "Net Income". repeat split.
  - apply elem_of_cons; now left.
  - apply elem_of_cons; right. apply elem_of_cons; now left.
  - exists "net "%string, EmptyString. reflexivity.
Defined.

(** The candidate order decides, not the row order: "Total Revenue" is the
    first row and is like the second candidate, yet "Net Income" wins. *)
Example col_like_candidate_order :
  _col_like (Some two_line_table) ["income"; "total"] = Some "Net Income".
Proof. reflexivity. Qed.

End ColLike.

(** ** Statement aggregates *)

Section Aggregates.

Lemma loc_of_label (d : DataFrame) (row : string) :
  row ∈ index d ->
  exists cells, (row, cells) ∈ rows d
                /\ loc d row = Ret (combine (columns d) cells).
Proof.
  unfold index, loc. induction (rows d) as [|[l cells] rs IH]; cbn.
  - intros H. now apply elem_of_nil in H.
  - intros H. destruct (String.eqb_spec l row) as [->|Hne].
    + exists cells. split; [apply elem_of_cons; now left | reflexivity].
    + apply elem_of_cons in H as [->|H]; [now destruct Hne|].
      destruct (IH H) as (cells' & H1 & H2).
      exists cells'. split; [apply elem_of_cons; now right | exact H2].
Qed.

Lemma frame_labels_distinct (d : DataFrame) : NoDup (index d).
Proof.
  destruct d as [cols rs ok]. unfold index; cbn.
  unfold frame_shape in ok. apply andb_true_iff in ok as [H _].
  now apply bool_decide_eq_true in H.
Qed.

(** Labels being distinct, [df.loc[label]] is the row stored under the
    label, paired with the period columns. *)
Lemma loc_of_row (d : DataFrame) (row : string) (cells : list float) :
  (row, cells) ∈ rows d -> loc d row = Ret (combine (columns d) cells).
Proof.
  pose proof (frame_labels_distinct d) as ND. unfold index, loc in *.
  induction (rows d) as [|[l c] rs IH]; cbn in *.
  - intros H. now apply elem_of_nil in H.
  - apply NoDup_cons in ND as [Hnew ND].
    intros H. apply elem_of_cons in H as [[= -> ->]|H].
    + now rewrite String.eqb_refl.
    + destruct (String.eqb_spec l row) as [->|Hne]; [|now apply IH].
      destruct Hnew. apply list_elem_of_In.
      apply (in_map fst rs (row, cells)). now apply list_elem_of_In.
Qed.

(** What [ttm_sum] does with the row it resolved. *)
Lemma ttm_sum_of_row (d : DataFrame) (cands : list string) (row : string)
      (r : Series) :
  empty d = false ->
  _col_like (Some d) cands = Some row ->
  loc d row = Ret r ->
  ttm_sum (Some d) cands
  = Ret (let s := tail 4 (sort_index (dropna r)) in
         if series_empty s then None else Some (sum s)).
Proof.
  intros He Hc Hl. unfold ttm_sum. rewrite He, Hc, Hl. py_step.
  destruct (series_empty _); reflexivity.
Qed.

Lemma ttm_sum_returns (df : option DataFrame) (cands : list string) :
  exists v, ttm_sum df cands = Ret v.
Proof.
  destruct df as [d|]; [|now exists None].
  destruct (empty d) eqn:He; [exists None; unfold ttm_sum; now rewrite He|].
  destruct (_col_like (Some d) cands) as [row|] eqn:Hc.
  - destruct (loc_of_label d row (col_like_in_index _ _ _ Hc))
      as (cells & _ & Hl).
    eexists. eapply ttm_sum_of_row; eauto.
  - exists None. unfold ttm_sum. now rewrite He, Hc.
Qed.

Lemma latest_value_returns (df : option DataFrame) (cands : list string) :
  exists v, latest_value df cands = Ret v.
Proof.
  destruct df as [d|]; [|now exists None].
  unfold latest_value.
  destruct (empty d) eqn:He; [now exists None|].
  destruct (_col_like (Some d) cands) as [row|] eqn:Hc; [|now exists None].
  destruct (loc_of_label d row (col_like_in_index _ _ _ Hc))
    as (cells & _ & Hl).
  rewrite Hl. py_step.
  destruct (sort_index _) as [|p s] eqn:Es; [now exists None|].
  cbn [series_empty is_nil].
  rewrite (iloc_back _ (-1)) by (unfold len; cbn [length]; lia).
  eexists. reflexivity.
Qed.

(** An absent or empty table has no aggregate. *)
Lemma ttm_sum_no_table (df : option DataFrame) (cands : list string) :
  match df with None => True | Some d => empty d = true end ->
  ttm_sum df cands = Ret None.
Proof.
  destruct df as [d|]; [|reflexivity].
  intros He. unfold ttm_sum. now rewrite He.
Qed.

Lemma latest_value_no_table (df : option DataFrame) (cands : list string) :
  match df with None => True | Some d => empty d = true end ->
  latest_value df cands = Ret None.
Proof.
  destruct df as [d|]; [|reflexivity].
  intros He. unfold latest_value. now rewrite He.
Qed.

Lemma insert_by_index_perm (p : Timestamp * float) (s : Series) :
  Permutation (insert_by_index p s) (p :: s).
Proof.
  induction s as [|q r IH]; cbn; [reflexivity|].
  destruct (Z.leb (fst p) (fst q)); [reflexivity|].
  rewrite IH. apply perm_swap.
Qed.

Lemma insert_by_index_sorted (p : Timestamp * float) (s : Series) :
  Sorted index_le s -> Sorted index_le (insert_by_index p s).
Proof.
  induction s as [|q r IH]; cbn; intros Hs.
  - repeat constructor.
  - destruct (Z.leb_spec (fst p) (fst q)) as [Hle|Hgt].
    + constructor; [exact Hs | constructor; exact Hle].
    + inversion Hs as [|? ? Hr Hq]; subst.
      constructor; [apply IH, Hr|].
      destruct r as [|q' r']; cbn.
      * constructor. unfold index_le. lia.
      * destruct (Z.leb (fst p) (fst q')); constructor.
        -- unfold index_le. lia.
        -- now inversion Hq.
Qed.

(** [sort_index] orders the observations by date and keeps them all; a
    series that is in date order already is left as it is. *)
Lemma sort_index_sorted (s : Series) :
  Sorted index_le (sort_index s) /\ Permutation (sort_index s) s.
Proof.
  induction s as [|p s [IH1 IH2]]; cbn.
  - split; constructor.
  - split; [now apply insert_by_index_sorted|].
    rewrite insert_by_index_perm. now constructor.
Qed.

Lemma sort_index_of_sorted (s : Series) :
  Sorted index_le s -> sort_index s = s.
Proof.
  induction s as [|p s IH]; [reflexivity|].
  intros Hs. inversion Hs as [|? ? Hr Hp]; subst.
  change (insert_by_index p (sort_index s) = p :: s). rewrite (IH Hr).
  destruct Hp as [|q r Hle]; cbn; [reflexivity|].
  unfold index_le in Hle.
  destruct (Z.leb_spec (fst p) (fst q)); [reflexivity | lia].
Qed.

Lemma tail_length (k : nat) (s : Series) :
  length (tail k s) = Nat.min k (length s).
Proof. unfold tail. rewrite length_skipn. lia. Qed.

(** The general shape of the sum: whenever the resolved row keeps at least
    one non-missing value, [ttm_sum] returns a number, the sum of the last
    [min 4 k] of its [k] values in date order. *)
Lemma ttm_sum_of_cells (d : DataFrame) (cands : list string) (row : string)
      (cells : list float) :
  empty d = false ->
  _col_like (Some d) cands = Some row ->
  (row, cells) ∈ rows d ->
  let kept := sort_index (dropna (combine (columns d) cells)) in
  length (tail 4 kept) = Nat.min 4 (length (dropna (combine (columns d) cells)))
  /\ ttm_sum (Some d) cands
     = Ret (if series_empty (tail 4 kept) then None
            else Some (sum (tail 4 kept)))
  /\ (dropna (combine (columns d) cells) <> [] ->
      ttm_sum (Some d) cands = Ret (Some (sum (tail 4 kept)))).
Proof.
  intros He Hc Hrow kept.
  assert (L : length kept = length (dropna (combine (columns d) cells)))
    by (apply Permutation_length, sort_index_sorted).
  assert (T : ttm_sum (Some d) cands
              = Ret (if series_empty (tail 4 kept) then None
                     else Some (sum (tail 4 kept))))
    by (apply (ttm_sum_of_row d cands row _ He Hc), loc_of_row, Hrow).
  split; [rewrite tail_length; now rewrite L|].
  split; [exact T|].
  intros Hne. rewrite T.
  assert (Lt : length (tail 4 kept) <> 0%nat).
  { rewrite tail_length, L.
    destruct (dropna (combine (columns d) cells)); [now destruct Hne|].
    cbn [length]. lia. }
  destruct (tail 4 kept); [now destruct Lt | reflexivity].
Qed.

Lemma ttm_sum_returned (df : option DataFrame) (cands : list string) :
  ttm_sum df cands = Ret (returned (ttm_sum df cands)).
Proof. destruct (ttm_sum_returns df cands) as [v ->]. reflexivity. Qed.

Lemma latest_value_returned (df : option DataFrame) (cands : list string) :
  latest_value df cands = Ret (returned (latest_value df cands)).
Proof. destruct (latest_value_returns df cands) as [v ->]. reflexivity. Qed.

(** C1 (the code at the failing input): with three non-missing quarters
    left for the matched row, [ttm_sum] returns their sum, 60, instead of
    [None]. *)
Theorem ttm_sum_three_quarters :
  length (dropna (combine (columns three_quarter_table)
                          [30; PrimFloat.nan; 20; 10]%float)) = 3%nat
  /\ _col_like (Some three_quarter_table) ["net income"; "net income common"]
     = Some "Net Income"
  /\ ttm_sum (Some three_quarter_table) ["net income"; "net income common"]
     = Ret (Some 60%float).
Proof. repeat split; vm_compute; reflexivity. Qed.

End Aggregates.

(** ** The final loop changes nothing *)

Section FinalLoop.

Lemma bind_of_Ret {A B} (k : A -> py B) (m : py A) (v : A) :
  m = Ret v -> mbind k m = k v.
Proof. intros ->. reflexivity. Qed.

Lemma tidy_id (k : string) (v : pyval) : tidy k v = v.
Proof.
  unfold tidy, py_float. destruct v as [x|]; [|reflexivity].
  destruct (is_finite x); [|reflexivity].
  destruct (contains _ k); [reflexivity|].
  destruct (existsb _ plain_keys); [reflexivity|].
  destruct (existsb _ _); reflexivity.
Qed.

Lemma final_loop_id (m : gmap string pyval) :
  map_imap (fun k v => Some (tidy k v)) m = m.
Proof.
  apply map_eq. intros k. rewrite map_lookup_imap.
  destruct (m !! k) as [v|]; cbn; [now rewrite tidy_id | reflexivity].
Qed.

End FinalLoop.

(** ** The ratio calculator computes the ratio table *)

Ltac returned_calls :=
  repeat match goal with
  | |- context [Ratios.ttm_sum ?t ?c] =>
      lazymatch goal with
      | H : Ratios.ttm_sum t c = Ret _ |- _ => fail
      | _ => let v := fresh "v" in
             let H := fresh "Hv" in
             destruct (ttm_sum_returns t c) as [v H]; rewrite ?H in *
      end
  | |- context [Ratios.latest_value ?t ?c] =>
      lazymatch goal with
      | H : Ratios.latest_value t c = Ret _ |- _ => fail
      | _ => let v := fresh "v" in
             let H := fresh "Hv" in
             destruct (latest_value_returns t c) as [v H]; rewrite ?H in *
      end
  end.

(** [block v] isolates the first statement of a sequence and asks for a
    proof that it returns [v]. *)
Ltac block v :=
  match goal with
  | |- mbind ?k ?m = _ =>
      let H := fresh "Hblock" in
      assert (H : m = Ret v);
      [ | rewrite (bind_of_Ret k m v H); clear H; cbv beta ]
  end.

Ltac name_values :=
  repeat match goal with
         | |- context [ttm ?s ?t ?c] =>
             let v := fresh "v" in generalize (ttm s t c); intros v
         | |- context [latest ?s ?t ?c] =>
             let v := fresh "v" in generalize (latest s t c); intros v
         | |- context [equity_value ?s] =>
             let v := fresh "v" in generalize (equity_value s); intros v
         | |- context [interest_charge ?s] =>
             let v := fresh "v" in generalize (interest_charge s); intros v
         end.

Ltac option_cases :=
  repeat match goal with
         | |- context [Ratios.get ?i ?k] => destruct (Ratios.get i k)
         end;
  repeat match goal with
         | v : pyval |- _ => destruct v
         end.

Ltac crunch :=
  name_values; option_cases;
  repeat first
    [ rewrite safe_div_quotient
    | progress py_step
    | progress cbn [returned quotient lift2 arith truthy is_None negb andb
                    py_abs option_map eq_zero]
    | match goal with
      | |- context [PrimFloat.eqb ?x ?y] =>
          destruct (PrimFloat.eqb x y) eqn:?
      end ];
  try reflexivity; try congruence.

Section RatioCalculator.

Lemma compute_core_ratios_table (price : pyval) (info : gmap string pyval)
      (stmts : gmap string DataFrame) :
  compute_core_ratios price info stmts = Ret (ratio_table price info stmts).
Proof.
  unfold compute_core_ratios. cbv zeta.
  block (pe_value price info stmts).
  { unfold pe_value, provider_or, ttm. returned_calls. crunch. }
  block (ps_value price info stmts).
  { unfold ps_value, provider_or, ttm. returned_calls. crunch. }
  block (ev_ebitda_value info stmts).
  { unfold ev_ebitda_value, enterprise_value, provider_or, ttm, latest.
    returned_calls. crunch. }
  block (lift2 PrimFloat.sub
           (ttm stmts "cf_q" ["total cash from operating activities";
                              "operating cash flow"])
           (ttm stmts "cf_q" ["capital expenditures"])).
  { unfold ttm. destruct (stmts !! "cf_q") as [d|]; [|reflexivity].
    destruct (empty d) eqn:He.
    - rewrite !ttm_sum_no_table by exact He. reflexivity.
    - returned_calls. crunch. }
  block (fcf_yield_value info stmts).
  { unfold fcf_yield_value. crunch. }
  block (equity_value stmts).
  { unfold equity_value, latest. returned_calls. crunch. }
  block (ttm stmts "income_q" ["net income"; "net income common"]).
  { unfold ttm. returned_calls. crunch. }
  block (roe_value stmts).
  { unfold roe_value. crunch. }
  block (latest stmts "bs_a" ["total debt"; "long term debt"]).
  { unfold latest. returned_calls. crunch. }
  block (de_value stmts).
  { unfold de_value. crunch. }
  block (latest stmts "bs_a" ["total current assets"]).
  { unfold latest. returned_calls. crunch. }
  block (latest stmts "bs_a" ["total current liabilities"]).
  { unfold latest. returned_calls. crunch. }
  block (current_ratio_value stmts).
  { unfold current_ratio_value. crunch. }
  block (ttm stmts "income_q" ["ebit"; "operating income"]).
  { unfold ttm. destruct (stmts !! "income_q") as [d|]; [|reflexivity].
    destruct (empty d) eqn:He.
    - rewrite !ttm_sum_no_table by exact He. reflexivity.
    - returned_calls. crunch. }
  block (ttm stmts "income_q" ["interest expense";
                               "interest expense non operating"]).
  { unfold ttm. returned_calls. crunch. }
  block (interest_charge stmts).
  { unfold interest_charge. cbv zeta. crunch. }
  block (interest_coverage_value stmts).
  { unfold interest_coverage_value. crunch. }
  rewrite final_loop_id. reflexivity.
Qed.

Lemma ratio_table_dom (price : pyval) (info : gmap string pyval)
      (stmts : gmap string DataFrame) :
  dom (ratio_table price info stmts) = list_to_set ratio_names.
Proof.
  unfold ratio_table, ratio_names.
  rewrite !dom_insert_L, dom_empty_L. cbn [list_to_set]. set_solver.
Qed.

Lemma ratio_table_entries (price : pyval) (info : gmap string pyval)
      (stmts : gmap string DataFrame) :
  let t := ratio_table price info stmts in
  t !! "P/E (TTM)" = Some (pe_value price info stmts)
  /\ t !! "P/B" = Some (get info "priceToBook")
  /\ t !! "P/S (TTM)" = Some (ps_value price info stmts)
  /\ t !! "EV/EBITDA (TTM)" = Some (ev_ebitda_value info stmts)
  /\ t !! "FCF Yield (TTM)" = Some (fcf_yield_value info stmts)
  /\ t !! "ROE (TTM)" = Some (roe_value stmts)
  /\ t !! "D/E" = Some (de_value stmts)
  /\ t !! "Current Ratio" = Some (current_ratio_value stmts)
  /\ t !! "Interest Coverage" = Some (interest_coverage_value stmts)
  /\ t !! "Dividend Yield" = Some (get info "dividendYield")
  /\ t !! "Beta" = Some (get info "beta").
Proof.
  cbv zeta. unfold ratio_table.
  repeat split;
    repeat (rewrite lookup_insert_ne by discriminate);
    apply lookup_insert_eq.
Qed.

End RatioCalculator.

(** ** Claims about the ratio calculator *)

Ltac absent_input :=
  intros;
  repeat match goal with
         | H : _ \/ _ |- _ => destruct H
         end;
  unfold pe_value, ps_value, ev_ebitda_value, enterprise_value,
    fcf_yield_value, roe_value, de_value, current_ratio_value,
    interest_coverage_value, interest_charge, equity_value, provider_or,
    ttm, latest;
  repeat match goal with
         | H : _ = _ |- _ => rewrite H
         end;
  cbn [returned];
  repeat match goal with
         | |- context [returned ?m] =>
             let v := fresh "v" in generalize (returned m); intros v
         end;
  option_cases;
  repeat first
    [ progress cbn [quotient lift2 truthy option_map negb]
    | match goal with
      | |- context [PrimFloat.eqb ?x ?y] => destruct (PrimFloat.eqb x y)
      end ];
  reflexivity.

Section RatioClaims.



(** C6: for every price, profile and statement set the calculator returns,
    without raising, a mapping whose keys are exactly the eleven ratio
    names.  Each entry is the value of its own formula: the three
    provider-only ratios are the profile's fields, and a computed ratio is
    [None] as soon as one of its own inputs is missing, which leaves the
    other entries as they are. *)
Theorem compute_core_ratios_partial (price : pyval)
        (info : gmap string pyval) (stmts : gmap string DataFrame) :
  exists out,
    compute_core_ratios price info stmts = Ret out
    /\ dom out = list_to_set ratio_names
    /\ out = ratio_table price info stmts
    /\ out !! "P/B" = Some (get info "priceToBook")
    /\ out !! "Dividend Yield" = Some (get info "dividendYield")
    /\ out !! "Beta" = Some (get info "beta")
    /\ (get info "trailingPE" = None ->
        price = None
        \/ get info "sharesOutstanding" = None
        \/ ttm_sum (stmts !! "income_q") ["net income"; "net income common"]
           = Ret None ->
        out !! "P/E (TTM)" = Some None)
    /\ (get info "priceToSalesTrailing12Months" = None ->
        price = None
        \/ get info "sharesOutstanding" = None
        \/ ttm_sum (stmts !! "income_q") ["total revenue"; "revenue"; "sales"]
           = Ret None ->
        out !! "P/S (TTM)" = Some None)
    /\ (get info "enterpriseToEbitda" = None ->
        get info "marketCap" = None
        \/ latest_value (stmts !! "bs_a")
             ["total debt"; "long term debt"; "short long term debt"]
           = Ret None
        \/ latest_value (stmts !! "bs_a") ["cash"; "cash and cash equivalents"]
           = Ret None
        \/ ttm_sum (stmts !! "income_q") ["ebitda"] = Ret None ->
        out !! "EV/EBITDA (TTM)" = Some None)
    /\ (get info "marketCap" = None
        \/ ttm_sum (stmts !! "cf_q")
             ["total cash from operating activities"; "operating cash flow"]
           = Ret None
        \/ ttm_sum (stmts !! "cf_q") ["capital expenditures"] = Ret None ->
        out !! "FCF Yield (TTM)" = Some None)
    /\ (ttm_sum (stmts !! "income_q") ["net income"; "net income common"]
        = Ret None
        \/ latest_value (stmts !! "bs_a")
             ["total stockholder equity"; "total shareholders equity"]
           = Ret None ->
        out !! "ROE (TTM)" = Some None)
    /\ (latest_value (stmts !! "bs_a") ["total debt"; "long term debt"]
        = Ret None
        \/ latest_value (stmts !! "bs_a")
             ["total stockholder equity"; "total shareholders equity"]
           = Ret None ->
        out !! "D/E" = Some None)
    /\ (latest_value (stmts !! "bs_a") ["total current assets"] = Ret None
        \/ latest_value (stmts !! "bs_a") ["total current liabilities"]
           = Ret None ->
        out !! "Current Ratio" = Some None)
    /\ (ttm_sum (stmts !! "income_q") ["ebit"; "operating income"] = Ret None
        \/ ttm_sum (stmts !! "income_q")
             ["interest expense"; "interest expense non operating"]
           = Ret None ->
        out !! "Interest Coverage" = Some None).
Proof.
  exists (ratio_table price info stmts).
  pose proof (ratio_table_entries price info stmts)
    as (Epe & Epb & Eps & Eev & Efcf & Eroe & Ede & Ecr & Eic & Edy & Ebeta).
  split; [apply compute_core_ratios_table|].
  split; [apply ratio_table_dom|].
  split; [reflexivity|].
  split; [exact Epb|]. split; [exact Edy|]. split; [exact Ebeta|].
  split; [transitivity (Some (pe_value price info stmts));
          [exact Epe | f_equal; absent_input]|].
  split; [transitivity (Some (ps_value price info stmts));
          [exact Eps | f_equal; absent_input]|].
  split; [transitivity (Some (ev_ebitda_value info stmts));
          [exact Eev | f_equal; absent_input]|].
  split; [transitivity (Some (fcf_yield_value info stmts));
          [exact Efcf | f_equal; absent_input]|].
  split; [transitivity (Some (roe_value stmts));
          [exact Eroe | f_equal; absent_input]|].
  split; [transitivity (Some (de_value stmts));
          [exact Ede | f_equal; absent_input]|].
  split; [transitivity (Some (current_ratio_value stmts));
          [exact Ecr | f_equal; absent_input]|].
  transitivity (Some (interest_coverage_value stmts));
    [exact Eic | f_equal; absent_input].
Qed.

End RatioClaims.

Section PartialResults.

Lemma compute_core_ratios_partial_witness :
  get beta_only "trailingPE" = None
  /\ exists out,
       compute_core_ratios None beta_only ∅ = Ret out
       /\ dom out = list_to_set ratio_names
       /\ out !! "Beta" = Some (Some 1.25%float)
       /\ out !! "P/E (TTM)" = Some None.
Proof.
  split; [reflexivity|].
  destruct (compute_core_ratios_partial None beta_only ∅)
    as (out & Hout & Hdom & _ & _ & _ & Hbeta & Hpe & _).
  exists out. split; [exact Hout|]. split; [exact Hdom|].
  split; [exact Hbeta|].
  apply Hpe; [reflexivity | left; reflexivity].
Defined.

End PartialResults.

(** ** The core operations and the clock *)

Section Determinism.

Lemma run_bind {A B} (m : Ambient.amb A) (k : A -> Ambient.amb B)
      (c : Clock) :
  Ambient.run (mbind k m) c
  = mbind (fun a => Ambient.run (k a) c) (Ambient.run m c).
Proof. reflexivity. Qed.

Lemma bind_agree {A B} (m m' : py A) (k k' : A -> py B) :
  m = m' -> (forall a, k a = k' a) -> mbind k m = mbind k' m'.
Proof. intros <- H. destruct m; cbn; [apply H | reflexivity]. Qed.

Lemma run_if {A} (b : bool) (x y : Ambient.amb A) (c : Clock) :
  Ambient.run (if b then x else y) c
  = if b then Ambient.run x c else Ambient.run y c.
Proof. now destruct b. Qed.

(** Both sides are the same sequence of calls: compare them call by
    call. *)
Ltac agree :=
  repeat first
    [ reflexivity
    | progress rewrite ?run_if
    | progress cbn [Ambient.run mret Ambient.amb_mret Ambient.call]
    | rewrite run_bind; apply bind_agree; [|intros ?]
    | match goal with
      | |- (if ?b then _ else _) = (if ?b then _ else _) => destruct b
      | |- match ?o with _ => _ end = match ?o with _ => _ end => destruct o
      end ].

(** Run in a process, each operation returns what its plain embedding
    returns. *)
Lemma run_col_like (df : option DataFrame) (cands : list string)
      (c : Clock) :
  Ambient.run (Ambient._col_like df cands) c = Ret (_col_like df cands).
Proof.
  unfold Ambient._col_like, _col_like.
  destruct df as [d|]; [|reflexivity]. now destruct (empty d).
Qed.

Lemma run_ttm_sum (df : option DataFrame) (cands : list string)
      (c : Clock) :
  Ambient.run (Ambient.ttm_sum df cands) c = ttm_sum df cands.
Proof.
  unfold Ambient.ttm_sum, ttm_sum.
  destruct df as [d|]; [|reflexivity].
  destruct (empty d); [reflexivity|].
  rewrite run_bind, run_col_like.
  destruct (_col_like (Some d) cands); [|reflexivity].
  cbn [mbind py_mbind Py.bind]. agree.
Qed.

Lemma run_latest_value (df : option DataFrame) (cands : list string)
      (c : Clock) :
  Ambient.run (Ambient.latest_value df cands) c = latest_value df cands.
Proof.
  unfold Ambient.latest_value, latest_value.
  destruct df as [d|]; [|reflexivity].
  destruct (empty d); [reflexivity|].
  rewrite run_bind, run_col_like.
  destruct (_col_like (Some d) cands); [|reflexivity].
  cbn [mbind py_mbind Py.bind]. agree.
Qed.

Lemma run_safe_div (a b : pyval) (c : Clock) :
  Ambient.run (Ambient.safe_div a b) c = safe_div a b.
Proof.
  unfold Ambient.safe_div, safe_div, Ambient.try_except, Py.try_except.
  cbn [Ambient.run].
  replace (Ambient.run
             (if (is_None a || is_None b || eq_zero b)%bool
              then mret None
              else x ← Ambient.call (to_float a);
                   y ← Ambient.call (to_float b);
                   q ← Ambient.call (truediv x y);
                   mret (Some q)) c)
    with (if (is_None a || is_None b || eq_zero b)%bool then Ret None
          else x ← to_float a;
               y ← to_float b;
               q ← truediv x y;
               Ret (Some q)).
  - destruct (if (is_None a || is_None b || eq_zero b)%bool then _ else _);
      reflexivity.
  - symmetry. agree.
Qed.

Lemma run_pct_window (s : Series) (n : Z) (c : Clock) :
  Ambient.run (Ambient.pct_window s n) c = pct_window s n.
Proof. unfold Ambient.pct_window, pct_window. cbv zeta. agree. Qed.

Lemma run_ret_days (s : Series) (n : Z) (c : Clock) :
  Ambient.run (Ambient._ret_days s n) c = _ret_days s n.
Proof. unfold Ambient._ret_days, _ret_days. cbv zeta. agree. Qed.

Lemma run_ytd_return (s : Series) (c : Clock) :
  Ambient.run (Ambient.ytd_return s) c = ytd_return c s.
Proof.
  unfold Ambient.ytd_return, ytd_return.
  destruct (series_empty s); [reflexivity|].
  rewrite run_bind.
  cbn [Ambient.run Ambient.datetime_now mbind py_mbind Py.bind].
  cbv zeta. agree.
Qed.

Lemma run_ret_ytd (s : Series) (c : Clock) :
  Ambient.run (Ambient._ret_ytd s) c = _ret_ytd c s.
Proof.
  unfold Ambient._ret_ytd, _ret_ytd. cbv zeta.
  destruct (series_empty (dropna s)); [reflexivity|].
  rewrite run_bind.
  cbn [Ambient.run Ambient.datetime_now mbind py_mbind Py.bind].
  agree.
Qed.

Ltac agree_calls :=
  repeat first
    [ reflexivity
    | apply run_ttm_sum | apply run_latest_value | apply run_safe_div
    | progress rewrite ?run_if
    | progress cbn [Ambient.run mret Ambient.amb_mret Ambient.call]
    | rewrite run_bind; apply bind_agree; [|intros ?]
    | match goal with
      | |- (if ?b then _ else _) = (if ?b then _ else _) => destruct b
      | |- Ambient.run (match ?o with Some _ => _ | None => _ end) _ = _ =>
          destruct o
      end ].

Lemma run_compute_core_ratios (price : pyval) (info : gmap string pyval)
      (stmts : gmap string DataFrame) (c : Clock) :
  Ambient.run (Ambient.compute_core_ratios price info stmts) c
  = compute_core_ratios price info stmts.
Proof.
  unfold Ambient.compute_core_ratios, compute_core_ratios. cbv zeta.
  agree_calls.
Qed.




End Determinism.

(** ** Worked examples *)

Section Examples.

Lemma pct_window_spec_witness :
  0 <= 4
  /\ length five_days_with_gaps = 6%nat
  /\ non_missing five_days_with_gaps = [100; 102; 101; 105; 110]%float
  /\ pct_window five_days_with_gaps 4 = Ret (Some (110 / 100 - 1)%float)
  /\ pct_window five_days_with_gaps 1 = Ret (Some (110 / 105 - 1)%float)
  /\ pct_window five_days_with_gaps 5 = Ret None.
Proof.
  split; [lia|]. split; [reflexivity|]. split; [reflexivity|].
  destruct (pct_window_spec five_days_with_gaps 4 ltac:(lia))
    as (_ & _ & Hfirst & _).
  destruct (pct_window_spec five_days_with_gaps 1 ltac:(lia))
    as (_ & Hlong & _).
  destruct (pct_window_spec five_days_with_gaps 5 ltac:(lia))
    as (Hshort & _).
  split; [exact (Hfirst eq_refl)|].
  split; [apply Hlong; vm_compute; reflexivity|].
  apply Hshort; vm_compute; discriminate.
Defined.

(** The year-to-date return at the turn of the year: December 31 is left
    out, January 1 is kept, the session without a price is dropped; one
    point alone gives [None], and so does the year after. *)
Lemma ytd_return_spec_witness :
  year_start 2024 = 738886
  /\ non_missing_from (year_start 2024) around_new_year = [100; 110]%float
  /\ ytd_return mid_2024 around_new_year = Ret (Some (110 / 100 - 1)%float)
  /\ _ret_ytd mid_2024 around_new_year = Ret (Some (110 / 100 - 1)%float)
  /\ ytd_return mid_2024 one_point_in_2024 = Ret None
  /\ ytd_return mid_2025 around_new_year = Ret None.
Proof.
  split; [reflexivity|]. split; [reflexivity|].
  destruct (ytd_return_spec mid_2024 around_new_year) as [E1 E2].
  destruct (ytd_return_spec mid_2024 one_point_in_2024) as [E3 _].
  destruct (ytd_return_spec mid_2025 around_new_year) as [E4 _].
  split; [exact E1|]. split; [rewrite E2; exact E1|].
  split; [exact E3 | exact E4].
Defined.

Lemma pct_window_ignores_dates_witness :
  observed five_days = observed five_days_with_gaps
  /\ pct_window five_days 1 = pct_window five_days_with_gaps 1
  /\ _ret_days five_days 1 = _ret_days five_days_with_gaps 1.
Proof.
  split; [reflexivity|].
  apply pct_window_ignores_dates. reflexivity.
Defined.

Example pct_window_one_day :
  pct_window five_days 1 = Ret (Some (110 / 105 - 1)%float).
Proof. reflexivity. Qed.

End Examples.

(** ** More on trading-day windows *)

Section WindowsMore.

Lemma pct_window_Some_long (s : Series) (n : Z) (v : float) :
  pct_window s n = Ret (Some v) -> n < Z.of_nat (length (observed s)).
Proof.
  intros H. destruct (Z_lt_le_dec n (Z.of_nat (length (observed s)))) as [L|L];
    [exact L|].
  rewrite (pct_window_short s n L) in H. discriminate H.
Qed.

Lemma observed_app (old s : Series) :
  observed (old ++ s) = observed old ++ observed s.
Proof. unfold observed, dropna, values. now rewrite List.filter_app, List.map_app. Qed.

Lemma at_pos_app_back (a d : list float) (i : nat) :
  (length a <= i)%nat -> at_pos (a ++ d) i = at_pos d (i - length a).
Proof. intros Hi. unfold at_pos. now rewrite app_nth2 by lia. Qed.

(** X1: a return over a longer window being available, the return over
    every shorter window is available too. *)
Theorem pct_window_shorter_window (s : Series) (m n : Z) (v : float) :
  0 <= m <= n ->
  pct_window s n = Ret (Some v) ->
  exists w, pct_window s m = Ret (Some w) /\ _ret_days s m = Ret (Some w).
Proof.
  intros Hm Hn. apply pct_window_Some_long in Hn.
  eexists. split; apply pct_window_long; lia.
Qed.

Lemma pct_window_app (old s : Series) (n : Z) :
  0 <= n < Z.of_nat (length (observed s)) ->
  pct_window (old ++ s) n = pct_window s n.
Proof.
  intros Hn. rewrite (pct_window_long s n Hn).
  rewrite pct_window_long
    by (rewrite observed_app, length_app; lia).
  rewrite observed_app.
  rewrite !at_pos_app_back by (rewrite length_app; lia).
  rewrite length_app.
  replace (length (observed old) + length (observed s) - 1
           - length (observed old))%nat
    with (length (observed s) - 1)%nat by lia.
  replace (length (observed old) + length (observed s) - 1 - Z.to_nat n
           - length (observed old))%nat
    with (length (observed s) - 1 - Z.to_nat n)%nat by lia.
  reflexivity.
Qed.

(** X2: once more than [n] non-missing observations are in a series, older
    observations put in front of it do not change the [n]-day return. *)
Theorem pct_window_recent_only (old s : Series) (n : Z) :
  0 <= n < Z.of_nat (length (observed s)) ->
  pct_window (old ++ s) n = pct_window s n
  /\ _ret_days (old ++ s) n = _ret_days s n.
Proof.
  intros Hn. split; exact (pct_window_app old s n Hn).
Qed.

End WindowsMore.

(** ** More on the year to date *)

Section YearToDateMore.

Lemma filter_twice {A} (p : A -> bool) (l : list A) :
  List.filter p (List.filter p l) = List.filter p l.
Proof.
  induction l as [|a l IH]; cbn; [reflexivity|].
  destruct (p a) eqn:E; cbn; rewrite ?E, IH; reflexivity.
Qed.

Lemma since_since (start : Timestamp) (s : Series) :
  since start (since start s) = since start s.
Proof. apply filter_twice. Qed.

(** X3: cutting a series at January 1 of the clock's year before asking for
    the year-to-date return changes nothing. *)
Theorem ytd_of_truncated_series (clock : Clock) (s : Series) :
  _ret_ytd clock (since (year_start (dt_year (now clock))) s)
  = _ret_ytd clock s
  /\ ytd_return clock (since (year_start (dt_year (now clock))) s)
     = ytd_return clock s.
Proof.
  rewrite !ret_ytd_slice, !ytd_return_slice. unfold ytd_slice.
  now rewrite since_since.
Qed.

(** Date order is transitive. *)
Lemma index_le_trans : Transitive index_le.
Proof. intros p q r. unfold index_le. lia. Qed.

#[local] Existing Instance index_le_trans.

(** In a series in date order, the observations from a date on are its
    last ones. *)
Lemma since_of_sorted (start : Timestamp) (s : Series) :
  Sorted index_le s ->
  exists before, s = before ++ since start s.
Proof.
  intros Hs. apply Sorted_StronglySorted in Hs; [|apply _].
  induction Hs as [|p s Hs IH Hp]; [now exists []|].
  unfold since in *. simpl.
  match goal with
  | |- context [if ?c then _ else _] => destruct c eqn:E
  end.
  - exists []. simpl. f_equal. symmetry.
    apply forallb_filter_id. apply forallb_forall. intros q Hq.
    apply Z.leb_le. apply Z.leb_le in E. rewrite Forall_forall in Hp.
    specialize (Hp q (proj2 (list_elem_of_In _ _) Hq)).
    unfold index_le, Timestamp in *. lia.
  - destruct IH as [before IH]. exists (p :: before). simpl. now f_equal.
Qed.

(** X4: on a series in date order with at least two non-missing observations
    in the clock's year, the year-to-date return is the windowed return whose
    window reaches back to the first of them. *)
Theorem ytd_return_is_a_window (clock : Clock) (s : Series) :
  Sorted index_le s ->
  (2 <= length (ytd_slice clock s))%nat ->
  ytd_return clock s
  = pct_window s (Z.of_nat (length (ytd_slice clock s)) - 1).
Proof.
  intros Hs Hk. rewrite ytd_return_slice.
  destruct (since_of_sorted (year_start (dt_year (now clock))) s Hs)
    as [before E].
  set (recent := since (year_start (dt_year (now clock))) s) in *.
  assert (D : ytd_slice clock s = observed recent) by reflexivity.
  rewrite D in *.
  transitivity (pct_window (before ++ recent)
                  (Z.of_nat (length (observed recent)) - 1));
    [|now rewrite <- E].
  rewrite pct_window_app by lia.
  rewrite pct_window_long by lia.
  unfold first_to_last.
  destruct (Nat.ltb_spec (length (observed recent)) 2); [lia|].
  replace (length (observed recent) - 1
           - Z.to_nat (Z.of_nat (length (observed recent)) - 1))%nat
    with 0%nat by lia.
  reflexivity.
Qed.

End YearToDateMore.

(** ** More on resolving a line item *)

Section ColLikeMore.

(** X5: what [_col_like] returns is the string form of a row label of the
    table; on a table whose row labels are strings it is a row label
    itself, and [df.loc] on it returns that row. *)
Theorem col_like_row_exists (d : DataFrame) (cands : list string)
        (row : string) :
  _col_like (Some d) cands = Some row ->
  exists cells,
    (row, cells) ∈ rows d /\ loc d row = Ret (combine (columns d) cells).
Proof.
  intros H. apply loc_of_label. eapply col_like_in_index, H.
Qed.

Lemma dict_set_new {V} (k : string) (v : V) (d : dict V) :
  k ∉ map fst d -> dict_set k v d = d ++ [(k, v)].
Proof.
  induction d as [|[k' v'] d IH]; cbn; [reflexivity|].
  intros Hk. destruct (String.eqb_spec k' k) as [->|Hne].
  - destruct Hk. apply elem_of_cons. now left.
  - rewrite IH; [reflexivity|]. intros Hin. apply Hk.
    apply elem_of_cons. now right.
Qed.

Lemma lowered_fold_distinct (labels : list string) (d0 : dict string) :
  NoDup (map fst d0 ++ map lower labels) ->
  fold_left (fun d c => dict_set (lower c) c d) labels d0
  = d0 ++ map (fun l => (lower l, l)) labels.
Proof.
  revert d0. induction labels as [|c labels IH]; intros d0 ND; cbn.
  - now rewrite app_nil_r.
  - cbn in ND. apply NoDup_app in ND as (ND0 & Hdisj & ND1).
    apply NoDup_cons in ND1 as [Hc ND1].
    rewrite dict_set_new.
    + rewrite IH; [now rewrite <- app_assoc|].
      rewrite map_app. cbn. rewrite <- app_assoc. cbn.
      apply NoDup_app. split; [exact ND0|]. split.
      * intros x Hx. apply Hdisj. exact Hx.
      * apply NoDup_cons. split; assumption.
    + intros Hin. apply (Hdisj _ Hin). apply elem_of_cons. now left.
Qed.

Lemma first_row_like_first (name : string) (labels : list string) (l : string) :
  first_row_like name (map (fun l => (lower l, l)) labels) = Some l ->
  exists before after,
    labels = before ++ l :: after
    /\ label_like name l
    /\ (forall l', l' ∈ before -> ~ label_like name l').
Proof.
  induction labels as [|c labels IH]; cbn; [discriminate|].
  destruct (contains (lower name) (lower c)) eqn:E.
  - intros [= ->]. exists [], labels. repeat split.
    + now apply label_like_contains.
    + intros l' H. now apply elem_of_nil in H.
  - intros H. destruct (IH H) as (before & after & -> & Hl & Hb).
    exists (c :: before), after. repeat split; [exact Hl|].
    intros l' Hl'. apply elem_of_cons in Hl' as [->|Hl']; [|now apply Hb].
    intros Hlike. apply label_like_contains in Hlike. congruence.
Qed.

(** X6: when no two row labels differ by case only, [_col_like] returns the
    first row, in table order, that is like the earliest candidate having
    any such row. *)
Theorem col_like_first_row (d : DataFrame) (cands : list string) (l : string) :
  NoDup (map lower (index d)) ->
  _col_like (Some d) cands = Some l ->
  exists pre name post before after,
    cands = pre ++ name :: post
    /\ (forall c l', c ∈ pre -> l' ∈ index d -> ~ label_like c l')
    /\ index d = before ++ l :: after
    /\ label_like name l
    /\ (forall l', l' ∈ before -> ~ label_like name l').
Proof.
  intros ND H. unfold _col_like in H.
  destruct (empty d); [discriminate|].
  apply scan_candidates_Some in H as (pre & name & post & -> & Hpre & Hname).
  assert (Hpre' : forall c l', c ∈ pre -> l' ∈ index d -> ~ label_like c l').
  { intros c l' Hc. apply first_row_like_no_row. auto. }
  unfold lowered_index in Hname.
  rewrite lowered_fold_distinct in Hname by exact ND.
  cbn [app] in Hname.
  apply first_row_like_first in Hname as (before & after & E & Hl & Hb).
  exists pre, name, post, before, after. auto.
Qed.

(** In a dictionary with distinct keys, the entries after an assignment. *)
Lemma dict_set_keys {V} (k : string) (v : V) (d : dict V) :
  map fst (dict_set k v d)
  = if bool_decide (k ∈ map fst d) then map fst d else map fst d ++ [k].
Proof.
  induction d as [|[k' v'] d IH]; cbn; [reflexivity|].
  destruct (String.eqb_spec k' k) as [->|Hne]; cbn.
  - rewrite bool_decide_eq_true_2; [reflexivity|]. apply elem_of_cons; now left.
  - rewrite IH. destruct (bool_decide (k ∈ map fst d)) eqn:E.
    + rewrite bool_decide_eq_true_2; [reflexivity|].
      apply bool_decide_eq_true in E. apply elem_of_cons; now right.
    + rewrite bool_decide_eq_false_2; [reflexivity|].
      apply bool_decide_eq_false in E. intros H.
      apply elem_of_cons in H as [->|H]; [now destruct Hne | now destruct E].
Qed.

Lemma dict_set_NoDup {V} (k : string) (v : V) (d : dict V) :
  NoDup (map fst d) -> NoDup (map fst (dict_set k v d)).
Proof.
  intros ND. rewrite dict_set_keys.
  destruct (bool_decide (k ∈ map fst d)) eqn:E; [exact ND|].
  apply bool_decide_eq_false in E.
  apply NoDup_app. split; [exact ND|]. split.
  - intros x Hx Hk. apply list_elem_of_singleton in Hk as ->. now destruct E.
  - apply NoDup_singleton.
Qed.

Lemma dict_set_elem_distinct {V} (k k0 : string) (v v0 : V) (d : dict V) :
  NoDup (map fst d) ->
  (k, v) ∈ dict_set k0 v0 d ->
  (k = k0 /\ v = v0) \/ (k <> k0 /\ (k, v) ∈ d).
Proof.
  induction d as [|[k' v'] d IH]; cbn; intros ND H.
  - apply list_elem_of_singleton in H as [= -> ->]. now left.
  - apply NoDup_cons in ND as [Hk' ND].
    destruct (String.eqb_spec k' k0) as [->|Hne].
    + apply elem_of_cons in H as [[= -> ->]|H]; [now left|].
      right. split; [|apply elem_of_cons; now right].
      intros ->. apply Hk'. apply list_elem_of_In.
      apply (in_map fst d (k0, v)). now apply list_elem_of_In.
    + apply elem_of_cons in H as [[= -> ->]|H].
      * right. split; [exact Hne | apply elem_of_cons; now left].
      * destruct (IH ND H) as [?|[? ?]]; [now left|].
        right. split; [assumption | apply elem_of_cons; now right].
Qed.

Lemma lowered_fold_last (labels seen : list string) (d0 : dict string) :
  NoDup (map fst d0) ->
  (forall k o, (k, o) ∈ d0 -> last_spelling seen k o) ->
  forall k o,
    (k, o) ∈ fold_left (fun d c => dict_set (lower c) c d) labels d0 ->
    last_spelling (seen ++ labels) k o.
Proof.
  revert seen d0. induction labels as [|c labels IH]; intros seen d0 ND Hd0 k o; cbn.
  - rewrite app_nil_r. apply Hd0.
  - replace (seen ++ c :: labels) with ((seen ++ [c]) ++ labels)
      by now rewrite <- app_assoc.
    apply IH; [now apply dict_set_NoDup|].
    intros k' o' H.
    apply dict_set_elem_distinct in H as [[-> ->]|[Hne H]]; [| |exact ND].
    + exists seen, []. repeat split. intros l' Hl'. now apply elem_of_nil in Hl'.
    + destruct (Hd0 _ _ H) as (before & after & -> & Hlow & Hafter).
      exists before, (after ++ [c]). repeat split.
      * now rewrite <- app_assoc.
      * exact Hlow.
      * intros l' Hl'. apply elem_of_app in Hl' as [Hl'|Hl']; [now apply Hafter|].
        apply list_elem_of_singleton in Hl' as ->. congruence.
Qed.

(** X7: of several rows whose labels differ by case only, [_col_like] can
    only return the last one: no row after the returned one has the same
    lower-cased label. *)
Theorem col_like_last_spelling (d : DataFrame) (cands : list string)
        (l : string) :
  _col_like (Some d) cands = Some l ->
  exists before after,
    index d = before ++ l :: after
    /\ (forall l', l' ∈ after -> lower l' <> lower l).
Proof.
  intros H. unfold _col_like in H.
  destruct (empty d); [discriminate|].
  apply scan_candidates_Some in H as (_ & name & _ & _ & _ & H).
  apply first_row_like_Some in H as (k & Hk & _).
  apply (lowered_fold_last (index d) [] []) in Hk.
  - destruct Hk as (before & after & E & Hlow & Hafter).
    exists before, after. split; [exact E|]. now rewrite Hlow.
  - constructor.
  - intros k' o' H'. now apply elem_of_nil in H'.
Qed.

End ColLikeMore.

(** ** More on statement aggregates *)

Section AggregatesMore.

#[local] Existing Instance index_le_trans.

Lemma iloc_last (s : Series) (p : Timestamp * float) :
  s <> [] -> iloc s (-1) = Ret (snd (List.last s p)).
Proof.
  intros Hs. destruct (exists_last Hs) as (front & q & ->).
  rewrite last_last. unfold iloc, len. rewrite last_length.
  destruct (Z.ltb_spec (-1) 0); [|lia].
  destruct (Z.ltb_spec (-1 + Z.of_nat (S (length front))) 0); [lia|].
  replace (Z.to_nat (-1 + Z.of_nat (S (length front)))) with (length front)
    by lia.
  rewrite nth_error_app2 by lia. now rewrite Nat.sub_diag.
Qed.

Lemma sorted_last_latest (s : Series) (p q : Timestamp * float) :
  Sorted index_le s -> q ∈ s -> fst q <= fst (List.last s p).
Proof.
  intros Hs Hq. apply Sorted_StronglySorted in Hs; [|apply _].
  destruct s as [|a s]; [now apply elem_of_nil in Hq|].
  destruct (@exists_last _ (a :: s)) as (front & z & E); [discriminate|].
  rewrite E in *. rewrite last_last.
  apply StronglySorted_app in Hs as (Hfz & _ & _).
  apply elem_of_app in Hq as [Hq|Hq].
  - apply (Hfz q z Hq). apply list_elem_of_singleton. reflexivity.
  - apply list_elem_of_singleton in Hq as ->. lia.
Qed.

(** X8: the number [latest_value] returns is a non-missing value of the row
    it resolved, and no non-missing value of that row has a later period
    date. *)
Theorem latest_value_most_recent (d : DataFrame) (cands : list string)
        (v : float) :
  latest_value (Some d) cands = Ret (Some v) ->
  exists row cells t,
    _col_like (Some d) cands = Some row
    /\ (row, cells) ∈ rows d
    /\ (t, v) ∈ combine (columns d) cells
    /\ PrimFloat.is_nan v = false
    /\ (forall t' v', (t', v') ∈ dropna (combine (columns d) cells) ->
                      t' <= t).
Proof.
  intros H. unfold latest_value in H.
  destruct (empty d); [discriminate|].
  destruct (_col_like (Some d) cands) as [row|] eqn:Hc; [|discriminate].
  destruct (loc_of_label d row (col_like_in_index _ _ _ Hc))
    as (cells & Hrow & Hl).
  rewrite Hl in H. unfold mbind, py_mbind, Py.bind in H. cbn beta iota in H.
  set (r := combine (columns d) cells) in *.
  destruct (sort_index_sorted (dropna r)) as [Hsorted Hperm].
  destruct (sort_index (dropna r)) as [|a s] eqn:Es; [discriminate|].
  cbn [series_empty is_nil] in H.
  rewrite (iloc_last (a :: s) a) in H by discriminate.
  injection H as <-.
  set (p := List.last (a :: s) a) in *.
  assert (Hp : p ∈ dropna r).
  { apply list_elem_of_In. apply (Permutation_in _ Hperm).
    destruct (@exists_last _ (a :: s)) as (front & z & E); [discriminate|].
    subst p. rewrite E, last_last. apply in_or_app. right. now left. }
  exists row, cells, (fst p). split; [reflexivity|]. split; [exact Hrow|].
  apply list_elem_of_In, filter_In in Hp as [Hin Hnan].
  split; [apply list_elem_of_In; now rewrite <- surjective_pairing|].
  split; [now apply negb_true_iff in Hnan|].
  intros t' v' Hq.
  apply (sorted_last_latest (a :: s) a (t', v') Hsorted).
  apply list_elem_of_In. apply (Permutation_in _ (Permutation_sym Hperm)).
  now apply list_elem_of_In.
Qed.

(** X9: with at least four non-missing values in the resolved row, [ttm_sum]
    returns the sum of exactly four of them, none of which is dated before
    any value left out. *)
Theorem ttm_sum_four_latest (d : DataFrame) (cands : list string)
        (row : string) (cells : list float) :
  empty d = false ->
  _col_like (Some d) cands = Some row ->
  (row, cells) ∈ rows d ->
  (4 <= length (dropna (combine (columns d) cells)))%nat ->
  exists older top,
    Permutation (dropna (combine (columns d) cells)) (older ++ top)
    /\ length top = 4%nat
    /\ (forall p q, p ∈ older -> q ∈ top -> fst p <= fst q)
    /\ ttm_sum (Some d) cands = Ret (Some (sum top)).
Proof.
  intros He Hc Hrow Hfour.
  set (r := combine (columns d) cells) in *.
  destruct (sort_index_sorted (dropna r)) as [Hsorted Hperm].
  set (kept := sort_index (dropna r)) in *.
  exists (firstn (length kept - 4) kept), (tail 4 kept).
  assert (L : length kept = length (dropna r))
    by now apply Permutation_length.
  split; [unfold tail; rewrite firstn_skipn; now symmetry|].
  split; [rewrite tail_length; lia|].
  split.
  - apply Sorted_StronglySorted in Hsorted; [|apply _].
    rewrite <- (firstn_skipn (length kept - 4) kept) in Hsorted.
    apply StronglySorted_app in Hsorted as (H & _ & _). exact H.
  - destruct (ttm_sum_of_cells d cands row cells He Hc Hrow) as (_ & _ & H).
    apply H. intros E. fold r in E. rewrite E in Hfour. cbn in Hfour. lia.
Qed.

(** X10: [ttm_sum] and [latest_value] are defined for the same tables and
    candidates: one returns [None] exactly when the other does. *)
Theorem ttm_sum_and_latest_value_defined_together (df : option DataFrame)
        (cands : list string) :
  ttm_sum df cands = Ret None <-> latest_value df cands = Ret None.
Proof.
  destruct df as [d|]; [|split; reflexivity].
  unfold ttm_sum, latest_value.
  destruct (empty d); [split; reflexivity|].
  destruct (_col_like (Some d) cands) as [row|] eqn:Hc; [|split; reflexivity].
  destruct (loc_of_label d row (col_like_in_index _ _ _ Hc))
    as (cells & _ & Hl).
  rewrite Hl. py_step.
  set (kept := sort_index (dropna (combine (columns d) cells))).
  pose proof (tail_length 4 kept) as T.
  destruct kept as [|a s] eqn:E.
  - split; reflexivity.
  - cbn [series_empty is_nil].
    rewrite (iloc_last (a :: s) a) by discriminate. py_step.
    destruct (tail 4 (a :: s)); [cbn in T; lia|].
    split; discriminate.
Qed.

End AggregatesMore.

(** ** Enterprise value over EBITDA *)

Section EnterpriseValue.

#[local] Existing Instance index_le_trans.

(** A number returned by [latest_value] is the latest figure of the table
    for the candidates. *)
Lemma latest_value_latest_figure (df : option DataFrame)
      (cands : list string) (v : float) :
  latest_value df cands = Ret (Some v) ->
  exists d, df = Some d /\ latest_figure d cands v.
Proof.
  destruct df as [d|]; [|discriminate]. intros H. exists d.
  split; [reflexivity|]. unfold latest_value in H.
  destruct (empty d) eqn:Hempty; [discriminate|].
  destruct (_col_like (Some d) cands) as [row|] eqn:Hc; [|discriminate].
  assert (Hlike : exists c, c ∈ cands /\ label_like c row).
  { unfold _col_like in Hc. rewrite Hempty in Hc.
    apply scan_candidates_Some in Hc as (pre & name & post & -> & _ & Hname).
    apply first_row_like_row in Hname as [_ Hlike].
    exists name. split; [|exact Hlike].
    apply elem_of_app. right. apply elem_of_cons. now left. }
  destruct (loc_of_label d row (col_like_in_index _ _ _ Hc))
    as (cells & Hrow & Hl).
  rewrite Hl in H. unfold mbind, py_mbind, Py.bind in H. cbn beta iota in H.
  set (r := combine (columns d) cells) in *.
  destruct (sort_index_sorted (dropna r)) as [Hsorted Hperm].
  destruct (sort_index (dropna r)) as [|a s] eqn:Es; [discriminate|].
  cbn [series_empty is_nil] in H.
  rewrite (iloc_last (a :: s) a) in H by discriminate.
  injection H as <-.
  set (p := List.last (a :: s) a) in *.
  assert (Hp : p ∈ dropna r).
  { apply list_elem_of_In. apply (Permutation_in _ Hperm).
    destruct (@exists_last _ (a :: s)) as (front & z & E); [discriminate|].
    subst p. rewrite E, last_last. apply in_or_app. right. now left. }
  exists row, cells, (fst p). split; [exact Hrow|]. split; [exact Hlike|].
  apply list_elem_of_In, filter_In in Hp as [Hin Hnan].
  split; [apply list_elem_of_In; now rewrite <- surjective_pairing|].
  split; [now apply negb_true_iff in Hnan|].
  intros t' v' Hq Hv.
  apply (sorted_last_latest (a :: s) a (t', v') Hsorted).
  apply list_elem_of_In. apply (Permutation_in _ (Permutation_sym Hperm)).
  apply filter_In. split; [now apply list_elem_of_In|].
  cbn [snd]. now rewrite Hv.
Qed.



End EnterpriseValue.

(** ** More on the ratio calculator *)

Section RatiosMore.

(** X11: only three statements are read: two statement sets with the same
    quarterly income statement, annual balance sheet and quarterly cash-flow
    statement give the same ratios. *)
Theorem compute_core_ratios_reads_three_tables (price : pyval)
        (info : gmap string pyval) (stmts stmts' : gmap string DataFrame) :
  stmts !! "income_q" = stmts' !! "income_q" ->
  stmts !! "bs_a" = stmts' !! "bs_a" ->
  stmts !! "cf_q" = stmts' !! "cf_q" ->
  compute_core_ratios price info stmts = compute_core_ratios price info stmts'.
Proof.
  intros Hi Hb Hc. rewrite !compute_core_ratios_table. f_equal.
  unfold ratio_table, pe_value, ps_value, ev_ebitda_value, enterprise_value,
    fcf_yield_value, roe_value, de_value, current_ratio_value,
    interest_coverage_value, interest_charge, equity_value, provider_or,
    ttm, latest.
  now rewrite Hi, Hb, Hc.
Qed.

Ltac other_keys :=
  unfold ratio_table;
  repeat (rewrite lookup_insert; case_decide; [subst; try reflexivity; try congruence|]);
  try reflexivity.

(** X12: the price enters two ratios only: whatever the two prices, all
    entries other than P/E and P/S are the same. *)
Theorem price_moves_two_ratios (price price' : pyval)
        (info : gmap string pyval) (stmts : gmap string DataFrame) :
  exists out out',
    compute_core_ratios price info stmts = Ret out
    /\ compute_core_ratios price' info stmts = Ret out'
    /\ forall k, k <> "P/E (TTM)" -> k <> "P/S (TTM)" -> out !! k = out' !! k.
Proof.
  exists (ratio_table price info stmts), (ratio_table price' info stmts).
  split; [apply compute_core_ratios_table|].
  split; [apply compute_core_ratios_table|].
  intros k Hpe Hps. other_keys.
Qed.

(** X13: return on equity, debt to equity, the current ratio and interest
    coverage come from the statements alone: neither the price nor the
    profile changes them. *)
Theorem statement_ratios_ignore_profile (price price' : pyval)
        (info info' : gmap string pyval) (stmts : gmap string DataFrame) :
  exists out out',
    compute_core_ratios price info stmts = Ret out
    /\ compute_core_ratios price' info' stmts = Ret out'
    /\ Forall (fun k => out !! k = out' !! k)
              ["ROE (TTM)"; "D/E"; "Current Ratio"; "Interest Coverage"].
Proof.
  exists (ratio_table price info stmts), (ratio_table price' info' stmts).
  split; [apply compute_core_ratios_table|].
  split; [apply compute_core_ratios_table|].
  pose proof (ratio_table_entries price info stmts)
    as (_ & _ & _ & _ & _ & E1 & E2 & E3 & E4 & _).
  pose proof (ratio_table_entries price' info' stmts)
    as (_ & _ & _ & _ & _ & F1 & F2 & F3 & F4 & _).
  repeat constructor; congruence.
Qed.

(** X14: the P/S entry is the provider's value when the profile has one;
    otherwise it is price * shares / TTM sales, and [None] when the price,
    the share count or the sales are missing, or the share count or the
    sales are zero. *)
Theorem ps_provider_then_fallback (price : pyval) (info : gmap string pyval)
        (stmts : gmap string DataFrame) :
  exists out sales,
    compute_core_ratios price info stmts = Ret out
    /\ ttm_sum (stmts !! "income_q") ["total revenue"; "revenue"; "sales"]
       = Ret sales
    /\ out !! "P/S (TTM)"
       = Some (match get info "priceToSalesTrailing12Months" with
               | Some v => Some v
               | None =>
                   match price, get info "sharesOutstanding", sales with
                   | Some p, Some n, Some s =>
                       if (PrimFloat.eqb n 0 || PrimFloat.eqb s 0)%bool
                       then None
                       else Some (p * n / s)%float
                   | _, _, _ => None
                   end
               end).
Proof.
  exists (ratio_table price info stmts),
    (ttm stmts "income_q" ["total revenue"; "revenue"; "sales"]).
  split; [apply compute_core_ratios_table|].
  split; [apply ttm_sum_returned|].
  pose proof (ratio_table_entries price info stmts) as (_ & _ & E & _).
  transitivity (Some (ps_value price info stmts)); [exact E|].
  unfold ps_value, provider_or. crunch.
Qed.

(** X15: the free-cash-flow yield is (TTM operating cash flow - TTM capital
    expenditures) / market cap, read from the quarterly cash-flow statement,
    and [None] when one of the three is missing or the market cap is zero. *)
Theorem fcf_yield_formula (price : pyval) (info : gmap string pyval)
        (stmts : gmap string DataFrame) :
  exists out ocf capex,
    compute_core_ratios price info stmts = Ret out
    /\ ttm_sum (stmts !! "cf_q")
         ["total cash from operating activities"; "operating cash flow"]
       = Ret ocf
    /\ ttm_sum (stmts !! "cf_q") ["capital expenditures"] = Ret capex
    /\ out !! "FCF Yield (TTM)"
       = Some (match ocf, capex, get info "marketCap" with
               | Some o, Some c, Some m =>
                   if PrimFloat.eqb m 0 then None else Some ((o - c) / m)%float
               | _, _, _ => None
               end).
Proof.
  exists (ratio_table price info stmts),
    (ttm stmts "cf_q" ["total cash from operating activities";
                       "operating cash flow"]),
    (ttm stmts "cf_q" ["capital expenditures"]).
  split; [apply compute_core_ratios_table|].
  split; [apply ttm_sum_returned|].
  split; [apply ttm_sum_returned|].
  pose proof (ratio_table_entries price info stmts) as (_ & _ & _ & _ & E & _).
  transitivity (Some (fcf_yield_value info stmts)); [exact E|].
  unfold fcf_yield_value. crunch.
Qed.

(** X16: return on equity and debt to equity divide by the same latest
    equity of the annual balance sheet, the current ratio divides current
    assets by current liabilities; each is [None] when an operand is missing
    or its divisor is zero. *)
Theorem balance_sheet_ratios (price : pyval) (info : gmap string pyval)
        (stmts : gmap string DataFrame) :
  exists out ni equity debt assets liabilities,
    compute_core_ratios price info stmts = Ret out
    /\ ttm_sum (stmts !! "income_q") ["net income"; "net income common"]
       = Ret ni
    /\ latest_value (stmts !! "bs_a")
         ["total stockholder equity"; "total shareholders equity"]
       = Ret equity
    /\ latest_value (stmts !! "bs_a") ["total debt"; "long term debt"]
       = Ret debt
    /\ latest_value (stmts !! "bs_a") ["total current assets"] = Ret assets
    /\ latest_value (stmts !! "bs_a") ["total current liabilities"]
       = Ret liabilities
    /\ out !! "ROE (TTM)" = Some (quotient ni equity)
    /\ out !! "D/E" = Some (quotient debt equity)
    /\ out !! "Current Ratio" = Some (quotient assets liabilities).
Proof.
  exists (ratio_table price info stmts),
    (ttm stmts "income_q" ["net income"; "net income common"]),
    (equity_value stmts),
    (latest stmts "bs_a" ["total debt"; "long term debt"]),
    (latest stmts "bs_a" ["total current assets"]),
    (latest stmts "bs_a" ["total current liabilities"]).
  split; [apply compute_core_ratios_table|].
  split; [apply ttm_sum_returned|].
  split; [apply latest_value_returned|].
  split; [apply latest_value_returned|].
  split; [apply latest_value_returned|].
  split; [apply latest_value_returned|].
  pose proof (ratio_table_entries price info stmts)
    as (_ & _ & _ & _ & _ & E1 & E2 & E3 & _).
  split; [exact E1|]. split; [exact E2 | exact E3].
Qed.

(** X17: interest coverage is TTM EBIT over the absolute value of TTM
    interest expense, so the sign under which the expense is reported does
    not matter; it is [None] when either is missing or the expense is
    zero. *)
Theorem interest_coverage_formula (price : pyval) (info : gmap string pyval)
        (stmts : gmap string DataFrame) :
  exists out ebit interest,
    compute_core_ratios price info stmts = Ret out
    /\ ttm_sum (stmts !! "income_q") ["ebit"; "operating income"] = Ret ebit
    /\ ttm_sum (stmts !! "income_q")
         ["interest expense"; "interest expense non operating"]
       = Ret interest
    /\ out !! "Interest Coverage"
       = Some (match ebit, interest with
               | Some e, Some i =>
                   if PrimFloat.eqb i 0 then None
                   else quotient (Some e) (Some (PrimFloat.abs i))
               | _, _ => None
               end).
Proof.
  exists (ratio_table price info stmts),
    (ttm stmts "income_q" ["ebit"; "operating income"]),
    (ttm stmts "income_q" ["interest expense";
                           "interest expense non operating"]).
  split; [apply compute_core_ratios_table|].
  split; [apply ttm_sum_returned|].
  split; [apply ttm_sum_returned|].
  pose proof (ratio_table_entries price info stmts)
    as (_ & _ & _ & _ & _ & _ & _ & _ & E & _).
  transitivity (Some (interest_coverage_value stmts)); [exact E|].
  unfold interest_coverage_value, interest_charge. cbv zeta.
  generalize (ttm stmts "income_q" ["ebit"; "operating income"]).
  generalize (ttm stmts "income_q" ["interest expense";
                                    "interest expense non operating"]).
  intros [i|] [e|]; cbn [truthy option_map quotient negb]; try reflexivity;
    destruct (PrimFloat.eqb i 0); reflexivity.
Qed.

End RatiosMore.

(** ** Spaces in labels and candidates *)

Section Spaces.

Lemma mentions_append (c : ascii) (a b : string) :
  mentions c (a ++ b) = (mentions c a || mentions c b)%bool.
Proof.
  induction a as [|x a IH]; [reflexivity|].
  change (mentions c (String x (a ++ b))
          = (mentions c (String x a) || mentions c b)%bool).
  cbn [mentions]. rewrite IH. now rewrite orb_assoc.
Qed.

Lemma lower_ascii_space (c : ascii) :
  Ascii.eqb (lower_ascii c) " " = Ascii.eqb c " ".
Proof.
  destruct c as [[] [] [] [] [] [] [] []]; vm_compute; reflexivity.
Qed.

Lemma spaced_lower (s : string) : spaced (lower s) = spaced s.
Proof.
  unfold spaced. induction s as [|c s IH]; [reflexivity|].
  cbn [lower mentions]. now rewrite lower_ascii_space, IH.
Qed.

Lemma label_like_spaced (name label : string) :
  label_like name label -> spaced name = true -> spaced label = true.
Proof.
  intros (pre & post & E) Hn. rewrite <- spaced_lower, E.
  unfold spaced. rewrite !mentions_append.
  rewrite <- spaced_lower in Hn. unfold spaced in Hn. rewrite Hn.
  now rewrite orb_true_r.
Qed.

Lemma col_like_no_match (df : option DataFrame) (cands : list string) :
  (forall c l, c ∈ cands ->
               match df with Some d => l ∈ index d | None => False end ->
               ~ label_like c l) ->
  _col_like df cands = None.
Proof.
  destruct df as [d|]; [|reflexivity]. intros H. unfold _col_like.
  destruct (empty d); [reflexivity|].
  destruct (scan_candidates _ _) as [o|] eqn:E; [|reflexivity].
  apply scan_candidates_Some in E as (pre & name & post & -> & _ & Hn).
  apply first_row_like_row in Hn as [Ho Hlike].
  destruct (H name o); auto. apply elem_of_app. right. apply elem_of_cons; now left.
Qed.

Lemma spaced_candidates_unresolved (df : option DataFrame) (cands : list string) :
  space_free df ->
  Forall (fun c => spaced c = true) cands ->
  _col_like df cands = None.
Proof.
  intros Hd Hc. apply col_like_no_match. intros c l Hin Hl Hlike.
  destruct df as [d|]; [|exact Hl]. cbn in Hd.
  rewrite Forall_forall in Hd, Hc.
  pose proof (label_like_spaced c l Hlike (Hc c Hin)) as Hs.
  rewrite (Hd l Hl) in Hs. discriminate.
Qed.

(** X18: candidates match as whole substrings, spaces included: on a table
    whose row labels have no space, candidates that all contain a space
    resolve to nothing, and both aggregates are [None]. *)
Theorem spaced_candidates_on_space_free_labels (df : option DataFrame)
        (cands : list string) :
  space_free df ->
  Forall (fun c => spaced c = true) cands ->
  _col_like df cands = None
  /\ ttm_sum df cands = Ret None
  /\ latest_value df cands = Ret None.
Proof.
  intros Hd Hc. pose proof (spaced_candidates_unresolved df cands Hd Hc) as E.
  split; [exact E|].
  unfold ttm_sum, latest_value. destruct df as [d|]; [|split; reflexivity].
  destruct (empty d); [split; reflexivity|]. rewrite E. split; reflexivity.
Qed.

Lemma spaced_ttm (stmts : gmap string DataFrame) (table : string)
      (cands : list string) :
  (forall k, space_free (stmts !! k)) ->
  forallb spaced cands = true ->
  ttm stmts table cands = None.
Proof.
  intros Hs Hc. unfold ttm.
  assert (E : ttm_sum (stmts !! table) cands = Ret None); [|now rewrite E].
  unfold ttm_sum. destruct (stmts !! table) as [d|] eqn:Ed; [|reflexivity].
  destruct (empty d); [reflexivity|].
  rewrite (spaced_candidates_unresolved (Some d) cands); [reflexivity| |].
  - specialize (Hs table). now rewrite Ed in Hs.
  - apply Forall_forall. intros c Hin. rewrite forallb_forall in Hc.
    apply Hc. now apply list_elem_of_In.
Qed.

Lemma spaced_latest (stmts : gmap string DataFrame) (table : string)
      (cands : list string) :
  (forall k, space_free (stmts !! k)) ->
  forallb spaced cands = true ->
  latest stmts table cands = None.
Proof.
  intros Hs Hc. unfold latest.
  assert (E : latest_value (stmts !! table) cands = Ret None); [|now rewrite E].
  unfold latest_value. destruct (stmts !! table) as [d|] eqn:Ed; [|reflexivity].
  destruct (empty d); [reflexivity|].
  rewrite (spaced_candidates_unresolved (Some d) cands); [reflexivity| |].
  - specialize (Hs table). now rewrite Ed in Hs.
  - apply Forall_forall. intros c Hin. rewrite forallb_forall in Hc.
    apply Hc. now apply list_elem_of_In.
Qed.

(** X19: when no row label of the statements has a space, the ratios that
    need a spaced line item are lost: P/E and EV/EBITDA are the provider's
    values alone, and the free-cash-flow yield, return on equity, debt to
    equity, the current ratio and interest coverage are [None]. *)
Theorem space_free_statements (price : pyval) (info : gmap string pyval)
        (stmts : gmap string DataFrame) :
  (forall k, space_free (stmts !! k)) ->
  exists out,
    compute_core_ratios price info stmts = Ret out
    /\ out !! "P/E (TTM)" = Some (get info "trailingPE")
    /\ out !! "EV/EBITDA (TTM)" = Some (get info "enterpriseToEbitda")
    /\ Forall (fun k => out !! k = Some None)
              ["FCF Yield (TTM)"; "ROE (TTM)"; "D/E"; "Current Ratio";
               "Interest Coverage"].
Proof.
  intros Hs. exists (ratio_table price info stmts).
  split; [apply compute_core_ratios_table|].
  pose proof (ratio_table_entries price info stmts)
    as (Epe & _ & _ & Eev & Efcf & Eroe & Ede & Ecr & Eic & _).
  assert (T : forall table cands, forallb spaced cands = true ->
                                  ttm stmts table cands = None)
    by (intros; now apply spaced_ttm).
  assert (L : forall table cands, forallb spaced cands = true ->
                                  latest stmts table cands = None)
    by (intros; now apply spaced_latest).
  split.
  { transitivity (Some (pe_value price info stmts)); [exact Epe|].
    unfold pe_value, provider_or. rewrite T by reflexivity.
    destruct (get info "trailingPE"), price, (get info "sharesOutstanding");
      reflexivity. }
  split.
  { transitivity (Some (ev_ebitda_value info stmts)); [exact Eev|].
    unfold ev_ebitda_value, enterprise_value, provider_or.
    rewrite !L by reflexivity.
    destruct (get info "enterpriseToEbitda"), (get info "marketCap");
      reflexivity. }
  repeat constructor.
  - transitivity (Some (fcf_yield_value info stmts)); [exact Efcf|].
    unfold fcf_yield_value. rewrite !T by reflexivity. reflexivity.
  - transitivity (Some (roe_value stmts)); [exact Eroe|].
    unfold roe_value. rewrite T by reflexivity. reflexivity.
  - transitivity (Some (de_value stmts)); [exact Ede|].
    unfold de_value. rewrite L by reflexivity. reflexivity.
  - transitivity (Some (current_ratio_value stmts)); [exact Ecr|].
    unfold current_ratio_value. rewrite L by reflexivity. reflexivity.
  - transitivity (Some (interest_coverage_value stmts)); [exact Eic|].
    unfold interest_coverage_value, interest_charge. cbv zeta.
    rewrite (T _ ["interest expense"; "interest expense non operating"])
      by reflexivity.
    cbn [truthy]. unfold quotient.
    destruct (ttm stmts "income_q" ["ebit"; "operating income"]); reflexivity.
Qed.

End Spaces.

(** ** The fetched profile *)

Section Profile.

Lemma get_profile_lookup {V} (get_info : py (gmap string (option V)))
      (k : string) :
  DataSource.get_profile get_info !! k
  = if bool_decide (k ∈ DataSource.wanted_keys)
    then Some (provider_info get_info !! k ≫= id)
    else None.
Proof.
  unfold DataSource.get_profile. fold (provider_info get_info).
  generalize (provider_info get_info) as info. intros info.
  unfold DataSource.wanted_keys at 1. cbn [fold_left].
  destruct (bool_decide (k ∈ DataSource.wanted_keys)) eqn:E.
  - apply bool_decide_eq_true in E. unfold DataSource.wanted_keys in E.
    repeat (apply elem_of_cons in E as [->|E];
            [repeat (rewrite lookup_insert_ne by discriminate);
             apply lookup_insert_eq|]).
    now apply elem_of_nil in E.
  - apply bool_decide_eq_false in E.
    repeat (rewrite lookup_insert_ne;
            [|intros <-; apply E; unfold DataSource.wanted_keys;
              repeat (first [apply list_elem_of_here
                            | apply list_elem_of_further])]).
    apply lookup_empty.
Qed.

(** X20: [DataSource.get_profile] returns the fifteen wanted fields and
    nothing else, each with the provider's value, or [None] when the
    provider has none or its call failed. *)
Theorem get_profile_fields {V} (get_info : py (gmap string (option V))) :
  dom (DataSource.get_profile get_info) = list_to_set DataSource.wanted_keys
  /\ (forall k, k ∈ DataSource.wanted_keys ->
                DataSource.get_profile get_info !! k
                = Some (provider_info get_info !! k ≫= id))
  /\ (forall k, k ∉ DataSource.wanted_keys ->
                DataSource.get_profile get_info !! k = None)
  /\ (forall e k, k ∈ DataSource.wanted_keys ->
                  DataSource.get_profile (V := V) (Raise e) !! k = Some None).
Proof.
  split.
  { unfold DataSource.get_profile, DataSource.wanted_keys. cbn [fold_left list_to_set].
    rewrite !dom_insert_L, dom_empty_L. set_solver. }
  split.
  { intros k Hk. rewrite get_profile_lookup.
    now rewrite bool_decide_eq_true_2. }
  split.
  { intros k Hk. rewrite get_profile_lookup.
    now rewrite bool_decide_eq_false_2. }
  intros e k Hk. rewrite get_profile_lookup.
  rewrite bool_decide_eq_true_2 by exact Hk. cbn. now rewrite lookup_empty.
Qed.

Lemma get_of_profile (get_info : py (gmap string pyval)) (k : string) :
  get (DataSource.get_profile get_info) k
  = if bool_decide (k ∈ DataSource.wanted_keys)
    then provider_info get_info !! k ≫= id
    else None.
Proof.
  unfold get. pose proof (get_profile_lookup get_info k) as H.
  unfold pyval in *. rewrite H.
  destruct (bool_decide (k ∈ DataSource.wanted_keys)); reflexivity.
Qed.

(** X21: the provider's [priceToSalesTrailing12Months] is not among the
    fields [DataSource.get_profile] keeps, so on a profile obtained from it
    the P/S entry is always the computed price * shares / TTM sales. *)
Theorem ps_on_fetched_profile (get_info : py (gmap string pyval))
        (price : pyval) (stmts : gmap string DataFrame) :
  exists out sales,
    compute_core_ratios price (DataSource.get_profile get_info) stmts = Ret out
    /\ ttm_sum (stmts !! "income_q") ["total revenue"; "revenue"; "sales"]
       = Ret sales
    /\ out !! "P/S (TTM)"
       = Some (match price,
                     provider_info get_info !! "sharesOutstanding" ≫= id,
                     sales with
               | Some p, Some n, Some s =>
                   if (PrimFloat.eqb n 0 || PrimFloat.eqb s 0)%bool then None
                   else Some (p * n / s)%float
               | _, _, _ => None
               end).
Proof.
  exists (ratio_table price (DataSource.get_profile get_info) stmts),
    (ttm stmts "income_q" ["total revenue"; "revenue"; "sales"]).
  split; [apply compute_core_ratios_table|].
  split; [apply ttm_sum_returned|].
  pose proof (ratio_table_entries price (DataSource.get_profile get_info) stmts)
    as (_ & _ & E & _).
  transitivity (Some (ps_value price (DataSource.get_profile get_info) stmts)); [exact E|].
  unfold ps_value, provider_or. rewrite !get_of_profile.
  rewrite bool_decide_eq_false_2
    by (intros Hin;
        repeat (apply elem_of_cons in Hin as [Hin|Hin]; [discriminate Hin|]);
        now apply elem_of_nil in Hin).
  rewrite bool_decide_eq_true_2
    by (unfold DataSource.wanted_keys;
        repeat (first [apply list_elem_of_here | apply list_elem_of_further])).
  generalize (provider_info get_info !! "sharesOutstanding" ≫= id).
  generalize (ttm stmts "income_q" ["total revenue"; "revenue"; "sales"]).
  intros [s|] [n|]; destruct price as [p|]; cbn; try reflexivity;
    repeat match goal with
           | |- context [PrimFloat.eqb ?x ?y] => destruct (PrimFloat.eqb x y)
           end; reflexivity.
Qed.

End Profile.

(** ** Ticker normalisation *)

Section Tickers.

Lemma upper_ascii_twice (c : ascii) : upper_ascii (upper_ascii c) = upper_ascii c.
Proof. destruct c as [[] [] [] [] [] [] [] []]; vm_compute; reflexivity. Qed.

Lemma is_space_upper (c : ascii) : is_space (upper_ascii c) = is_space c.
Proof. destruct c as [[] [] [] [] [] [] [] []]; vm_compute; reflexivity. Qed.

Lemma upper_twice (s : string) : upper (upper s) = upper s.
Proof.
  induction s as [|c s IH]; cbn; [reflexivity|].
  now rewrite upper_ascii_twice, IH.
Qed.

Lemma upper_append (a b : string) : upper (a ++ b) = (upper a ++ upper b)%string.
Proof.
  induction a as [|c a IH]; [reflexivity|].
  change (upper (String c (a ++ b))
          = String (upper_ascii c) (upper a ++ upper b)).
  cbn [upper]. now rewrite IH.
Qed.

Lemma lstrip_upper (s : string) : lstrip (upper s) = upper (lstrip s).
Proof.
  induction s as [|c s IH]; cbn [upper lstrip]; [reflexivity|].
  rewrite is_space_upper. destruct (is_space c); [exact IH | reflexivity].
Qed.

Lemma rstrip_upper (s : string) : rstrip (upper s) = upper (rstrip s).
Proof.
  induction s as [|c s IH]; cbn [upper rstrip]; [reflexivity|].
  rewrite IH, is_space_upper.
  destruct (rstrip s); cbn [upper]; [destruct (is_space c)|]; reflexivity.
Qed.

Lemma lstrip_length (s : string) : (String.length (lstrip s) <= String.length s)%nat.
Proof.
  induction s as [|c s IH]; cbn [lstrip String.length]; [lia|].
  destruct (is_space c); cbn [String.length]; lia.
Qed.

Lemma lstrip_fixed (c : ascii) (r : string) :
  lstrip (String c r) = String c r -> is_space c = false.
Proof.
  cbn [lstrip]. destruct (is_space c); [|reflexivity].
  intros E. pose proof (lstrip_length r) as L. rewrite E in L.
  cbn [String.length] in L. lia.
Qed.

Lemma lstrip_twice (s : string) : lstrip (lstrip s) = lstrip s.
Proof.
  induction s as [|c s IH]; cbn [lstrip]; [reflexivity|].
  destruct (is_space c) eqn:E; [exact IH|]. cbn [lstrip]. now rewrite E.
Qed.

Lemma rstrip_twice (s : string) : rstrip (rstrip s) = rstrip s.
Proof.
  induction s as [|c s IH]; cbn [rstrip]; [reflexivity|].
  destruct (rstrip s) as [|a b] eqn:E.
  - destruct (is_space c) eqn:Ec; [reflexivity|].
    cbn [rstrip]. now rewrite Ec.
  - cbn [rstrip]. cbn [rstrip] in IH. rewrite IH. reflexivity.
Qed.

Lemma rstrip_keeps_front (s : string) : lstrip s = s -> lstrip (rstrip s) = rstrip s.
Proof.
  destruct s as [|c r]; [reflexivity|]. intros H.
  apply lstrip_fixed in H. cbn [rstrip].
  destruct (rstrip r); rewrite ?H; cbn [lstrip]; now rewrite H.
Qed.

Lemma strip_trimmed (s : string) : trimmed (strip s).
Proof.
  unfold trimmed, strip. split.
  - apply rstrip_keeps_front, lstrip_twice.
  - apply rstrip_twice.
Qed.

Lemma trimmed_strip (s : string) : trimmed s -> strip s = s.
Proof. intros [H1 H2]. unfold strip. now rewrite H1. Qed.

Lemma strip_upper (s : string) : strip (upper s) = upper (strip s).
Proof. unfold strip. now rewrite lstrip_upper, rstrip_upper. Qed.

Lemma clean_upper_strip (s : string) : clean (upper (strip s)).
Proof.
  split; [|apply upper_twice].
  destruct (strip_trimmed s) as [H1 H2]. split.
  - now rewrite lstrip_upper, H1.
  - now rewrite rstrip_upper, H2.
Qed.

Lemma clean_fixed (s : string) : clean s -> upper (strip s) = s.
Proof. intros [Ht Hu]. now rewrite trimmed_strip. Qed.

Lemma rstrip_append (a b : string) :
  rstrip b = b -> b <> EmptyString -> rstrip (a ++ b) = (a ++ b)%string.
Proof.
  intros Hb Hne. induction a as [|c a IH]; [exact Hb|].
  change (rstrip (String c (a ++ b)) = String c (a ++ b)).
  cbn [rstrip]. rewrite IH.
  destruct (a ++ b)%string eqn:E; [|reflexivity].
  destruct a; [now destruct Hne | discriminate E].
Qed.

Lemma clean_suffixed (s : string) : clean s -> clean (s ++ ".TO").
Proof.
  intros [[H1 H2] Hu]. split; [split|].
  - destruct s as [|c r]; [reflexivity|].
    apply lstrip_fixed in H1.
    change (lstrip (String c (r ++ ".TO")) = String c (r ++ ".TO")).
    cbn [lstrip]. now rewrite H1.
  - apply rstrip_append; [reflexivity | discriminate].
  - rewrite upper_append, Hu. reflexivity.
Qed.

Lemma endswith_append (suffix a : string) : endswith suffix (a ++ suffix) = true.
Proof.
  induction a as [|c a IH].
  - change (endswith suffix suffix = true).
    destruct suffix; cbn [endswith]; now rewrite String.eqb_refl.
  - change (endswith suffix (String c (a ++ suffix)) = true).
    cbn [endswith]. rewrite IH. apply orb_true_r.
Qed.

Lemma startswith_suffixed (s : string) :
  startswith "^" (s ++ ".TO") = startswith "^" s.
Proof.
  destruct s as [|c r]; [reflexivity|]. unfold startswith.
  change (String.prefix "^" (String c r ++ ".TO"))
    with (if Ascii.ascii_dec "^" c then String.prefix "" (r ++ ".TO")
          else false).
  change (String.prefix "^" (String c r))
    with (if Ascii.ascii_dec "^" c then String.prefix "" r else false).
  destruct (Ascii.ascii_dec "^" c); [|reflexivity].
  destruct (r ++ ".TO")%string; destruct r; reflexivity.
Qed.

Lemma eqb_empty_suffixed (s : string) : String.eqb (s ++ ".TO") "" = false.
Proof. now destruct s. Qed.

Lemma startswith_nonempty (s : string) :
  startswith "^" s = true -> String.eqb s "" = false.
Proof. now destruct s. Qed.

Lemma endswith_nonempty (s : string) :
  endswith ".TO" s = true -> String.eqb s "" = false.
Proof. now destruct s. Qed.

(** On a clean, non-empty ticker the page's normalisation only decides on
    the suffix. *)
Lemma fiche_on_clean (u : string) :
  clean u -> String.eqb u "" = false ->
  FicheValeur._normalize_ticker u
  = if startswith "^" u then u
    else if endswith ".TO" u then u else (u ++ ".TO")%string.
Proof.
  intros Hc Hne. unfold FicheValeur._normalize_ticker.
  rewrite Hne. cbv zeta. now rewrite (clean_fixed u Hc).
Qed.

Lemma source_on_clean (u : string) :
  clean u ->
  DataSource._normalize_ticker u
  = if (negb (endswith ".TO" u)
        && negb (existsb (String.eqb u) known_indices))%bool
    then (u ++ ".TO")%string else u.
Proof.
  intros Hc. unfold DataSource._normalize_ticker. cbv zeta.
  now rewrite (clean_fixed u Hc).
Qed.

(** X22: the page's ticker normalisation is idempotent, and the comparator's
    [_normalize_tsx] is the same function. *)
Theorem normalize_ticker_idempotent (t : string) :
  isascii t = true ->
  FicheValeur._normalize_ticker (FicheValeur._normalize_ticker t)
  = FicheValeur._normalize_ticker t
  /\ Comparateur._normalize_tsx (Comparateur._normalize_tsx t)
     = Comparateur._normalize_tsx t
  /\ Comparateur._normalize_tsx t = FicheValeur._normalize_ticker t.
Proof.
  intros _.
  assert (H : FicheValeur._normalize_ticker (FicheValeur._normalize_ticker t)
              = FicheValeur._normalize_ticker t).
  { unfold FicheValeur._normalize_ticker at 2 3.
    destruct (String.eqb t "") eqn:Et.
    - apply String.eqb_eq in Et. subst t. reflexivity.
    - cbv zeta. pose proof (clean_upper_strip t) as Hc.
      set (u := upper (strip t)) in *.
      destruct (startswith "^" u) eqn:Es.
      + rewrite fiche_on_clean by auto using startswith_nonempty.
        now rewrite Es.
      + destruct (endswith ".TO" u) eqn:Ee.
        * rewrite fiche_on_clean by auto using endswith_nonempty.
          now rewrite Es, Ee.
        * rewrite fiche_on_clean
            by auto using clean_suffixed, eqb_empty_suffixed.
          now rewrite startswith_suffixed, Es, endswith_append. }
  split; [exact H|]. split; [exact H | reflexivity].
Qed.

Lemma page_ticker_clean (t : string) :
  t <> EmptyString ->
  clean (FicheValeur._normalize_ticker t)
  /\ (startswith "^" (FicheValeur._normalize_ticker t) = true
      \/ endswith ".TO" (FicheValeur._normalize_ticker t) = true).
Proof.
  intros Hne. unfold FicheValeur._normalize_ticker.
  destruct (String.eqb_spec t ""); [contradiction|]. cbv zeta.
  pose proof (clean_upper_strip t) as Hc.
  set (u := upper (strip t)) in *.
  destruct (startswith "^" u) eqn:Es; [|destruct (endswith ".TO" u) eqn:Ee].
  - auto.
  - auto.
  - split; [now apply clean_suffixed | right; apply endswith_append].
Qed.

(** X23: a normalised ticker is in normal form: for a non-empty input the
    page's result has no blank at either end and no lower-case letter, and
    it is an index symbol starting with [^] or ends with [.TO]. *)
Theorem page_ticker_normal_form (t : string) :
  isascii t = true ->
  t <> EmptyString ->
  let r := FicheValeur._normalize_ticker t in
  strip r = r /\ upper r = r
  /\ (startswith "^" r = true \/ endswith ".TO" r = true).
Proof.
  intros _ Hne r.
  destruct (page_ticker_clean t Hne) as ([Ht Hu] & Hshape).
  fold r in Ht, Hu, Hshape.
  split; [now apply trimmed_strip|]. split; assumption.
Qed.

(** X24: the data source's normalisation is idempotent, and its result has
    no blank at either end, no lower-case letter, and ends with [.TO] unless
    it is one of the three index symbols it knows. *)
Theorem source_ticker_normal_form (t : string) :
  isascii t = true ->
  let r := DataSource._normalize_ticker t in
  DataSource._normalize_ticker r = r
  /\ strip r = r /\ upper r = r
  /\ (endswith ".TO" r = true \/ r ∈ known_indices).
Proof.
  intros _. cbv zeta.
  assert (H : clean (DataSource._normalize_ticker t)
              /\ (endswith ".TO" (DataSource._normalize_ticker t) = true
                  \/ existsb (String.eqb (DataSource._normalize_ticker t))
                             known_indices = true)).
  { unfold DataSource._normalize_ticker. cbv zeta.
    pose proof (clean_upper_strip t) as Hc.
    set (u := upper (strip t)) in *. fold known_indices.
    destruct (endswith ".TO" u) eqn:Ee; cbn [negb andb].
    - auto.
    - destruct (existsb (String.eqb u) known_indices) eqn:Ek; cbn [negb].
      + auto.
      + split; [now apply clean_suffixed | left; apply endswith_append]. }
  destruct H as [Hc Hshape].
  set (r := DataSource._normalize_ticker t) in *.
  split.
  { rewrite source_on_clean by exact Hc.
    destruct Hshape as [He|Hk]; [now rewrite He|].
    rewrite Hk. now rewrite andb_false_r. }
  destruct Hc as [Ht Hu]. split; [now apply trimmed_strip|].
  split; [exact Hu|].
  destruct Hshape as [He|Hk]; [now left|]. right.
  apply existsb_exists in Hk as (x & Hx & E).
  apply String.eqb_eq in E. subst x. now apply list_elem_of_In.
Qed.

(** X25: a ticker the page has normalised goes through the data source's
    normalisation unchanged when it is no index symbol or one of the three
    the data source knows; any other index symbol gets [.TO] appended. *)
Theorem source_after_page_normalisation (t : string) :
  isascii t = true ->
  t <> EmptyString ->
  let r := FicheValeur._normalize_ticker t in
  (startswith "^" r = false \/ r ∈ known_indices ->
   DataSource._normalize_ticker r = r)
  /\ (startswith "^" r = true -> endswith ".TO" r = false ->
      r ∉ known_indices ->
      DataSource._normalize_ticker r = (r ++ ".TO")%string).
Proof.
  intros _ Hne r.
  destruct (page_ticker_clean t Hne) as (Hc & Hshape).
  fold r in Hc, Hshape. rewrite (source_on_clean r Hc). split.
  - intros [Hs|Hk].
    + destruct Hshape as [H|H]; [congruence|]. now rewrite H.
    + assert (E : existsb (String.eqb r) known_indices = true).
      { apply existsb_exists. exists r. split.
        - now apply list_elem_of_In.
        - apply String.eqb_refl. }
      rewrite E. now rewrite andb_false_r.
  - intros Hs He Hk. rewrite He.
    destruct (existsb (String.eqb r) known_indices) eqn:E; [|reflexivity].
    apply existsb_exists in E as (x & Hx & E).
    apply String.eqb_eq in E. subst x. destruct Hk. now apply list_elem_of_In.
Qed.

End Tickers.

(** ** Rows of the screener and the KPI block *)

Section Availability.

(** A windowed return is available exactly when more than [n] non-missing
    observations are there. *)
Lemma pct_window_available (s : Series) (n : Z) :
  0 <= n ->
  exists v, pct_window s n = Ret v
            /\ (v <> None <-> n < Z.of_nat (length (observed s))).
Proof.
  intros Hn. destruct (Z_lt_le_dec n (Z.of_nat (length (observed s)))) as [L|L].
  - eexists. split; [apply pct_window_long; lia|]. split; [now intros _ | discriminate].
  - exists None. split; [now apply pct_window_short|]. split; [congruence | lia].
Qed.

Lemma ytd_slice_short (clock : Clock) (s : Series) :
  (length (ytd_slice clock s) <= length (observed s))%nat.
Proof.
  unfold ytd_slice, observed, values, dropna, since.
  rewrite !length_map, filter_swap. apply filter_length_le.
Qed.

Lemma ytd_return_available (clock : Clock) (s : Series) :
  exists v, ytd_return clock s = Ret v /\ _ret_ytd clock s = Ret v
            /\ (v <> None -> 2 <= Z.of_nat (length (observed s))).
Proof.
  exists (first_to_last (ytd_slice clock s)).
  split; [apply ytd_return_slice|]. split; [apply ret_ytd_slice|].
  unfold first_to_last. pose proof (ytd_slice_short clock s).
  destruct (Nat.ltb_spec (length (ytd_slice clock s)) 2); [congruence | lia].
Qed.

Lemma last_price_available (s : Series) :
  exists v,
    (if negb (series_empty (dropna s))
     then x ← iloc (dropna s) (-1); Ret (Some x)
     else Ret None) = Ret v
    /\ (v <> None <-> 1 <= Z.of_nat (length (observed s))).
Proof.
  unfold observed. pose proof (len_values (dropna s)) as L. unfold len in L.
  destruct (dropna s) as [|p r] eqn:E; cbn [series_empty is_nil negb].
  - exists None. split; [reflexivity|]. cbn. split; [congruence | lia].
  - rewrite (iloc_back _ (-1)) by (unfold len; cbn [length]; lia).
    eexists. split; [reflexivity|]. cbn [values map length].
    split; [lia | discriminate].
Qed.

Lemma row_of_nested (clock : Clock) (df : list Constituent) (t : string)
      (s : Series) :
  exists r, row_of clock df t s = Ret r /\ Ticker r = t /\ nested r.
Proof.
  unfold row_of, RET_1D, RET_1W, RET_1M, RET_3M, RET_6M, RET_1Y.
  destruct (pct_window_available s 1) as (r1 & E1 & H1); [lia|].
  destruct (pct_window_available s 5) as (r5 & E5 & H5); [lia|].
  destruct (pct_window_available s 21) as (r21 & E21 & H21); [lia|].
  destruct (pct_window_available s 63) as (r63 & E63 & H63); [lia|].
  destruct (pct_window_available s 126) as (r126 & E126 & H126); [lia|].
  destruct (pct_window_available s 252) as (r252 & E252 & H252); [lia|].
  destruct (ytd_return_available clock s) as (ry & Ey & _ & Hy).
  destruct (last_price_available s) as (lp & El & Hl).
  exists (mkRow t (first_of df t longName) (first_of df t sector)
                r1 r5 r21 r63 r126 r252 ry lp).
  split.
  { block r1; [exact E1|]. block r5; [exact E5|]. block r21; [exact E21|].
    block r63; [exact E63|]. block r126; [exact E126|].
    block r252; [exact E252|]. block ry; [exact Ey|]. block lp; [exact El|].
    reflexivity. }
  split; [reflexivity|].
  unfold nested; cbn. rewrite H1, H5, H21, H63, H126, H252, Hl.
  repeat split; try lia. intros H. specialize (Hy H). lia.
Qed.

(** X26: the screener never fails on a frame of prices: it gives one row per
    column, in column order, and in every row a return is available only if
    the returns over all shorter windows and the last price are. *)
Theorem screener_rows_nested (clock : Clock) (df : list Constituent)
        (prices : PriceFrame) :
  exists rows,
    screener_rows clock df prices = Ret rows
    /\ map Ticker rows = map fst (px_columns prices)
    /\ Forall nested rows.
Proof.
  unfold screener_rows.
  induction (px_columns prices) as [|[t cells] cols IH];
    cbn [map rows_of fst snd].
  - exists []. repeat split; constructor.
  - destruct (row_of_nested clock df t (combine (px_index prices) cells))
      as (r & Hr & Ht & Hn).
    destruct IH as (rs & Hrs & Hts & Hns).
    exists (r :: rs). split.
    { block r; [exact Hr|]. block rs; [exact Hrs|]. reflexivity. }
    cbn [map]. split.
    + now rewrite Ht, Hts.
    + now constructor.
Qed.

Lemma column_of_has (prices : PriceFrame) (ticker : string) :
  has_column prices ticker = true -> exists c, column prices ticker = Ret c.
Proof.
  unfold has_column, column. intros H.
  destruct (List.find _ (px_columns prices)) as [c|] eqn:E; [eauto|].
  apply existsb_exists in H as (x & Hx & Hm).
  now rewrite (find_none _ _ E x Hx) in Hm.
Qed.

Lemma not_None_dec (v : pyval) : v = None \/ v <> None.
Proof. destruct v; [right; discriminate | now left]. Qed.

(** X27: the KPI block never fails; without a price column for the ticker
    nothing is available, the one-year return is available only if the
    one-month return is, and any return only if the last price is. *)
Theorem render_kpi_block_nested (clock : Clock) (ticker : string)
        (prices : PriceFrame) :
  exists k,
    render_kpi_block clock ticker prices = Ret k
    /\ (has_column prices ticker = false ->
        k = mkKpi None None None None)
    /\ (ret_1y k <> None -> ret_1m k <> None)
    /\ (ret_1m k <> None \/ ret_ytd k <> None -> last_px k <> None).
Proof.
  unfold render_kpi_block.
  assert (S : exists c0,
             (if (negb (px_empty prices) && has_column prices ticker)%bool
              then c ← column prices ticker; Ret (dropna c)
              else Ret []) = Ret (dropna c0)
             /\ (has_column prices ticker = false -> c0 = [])).
  { destruct (has_column prices ticker) eqn:Hc.
    - destruct (column_of_has _ _ Hc) as [c Ec].
      destruct (px_empty prices); cbn [negb andb].
      + exists []. split; [reflexivity | reflexivity].
      + exists c. rewrite Ec. split; [reflexivity | discriminate].
    - exists []. rewrite andb_false_r. split; reflexivity. }
  destruct S as (c0 & Es & Hnone).
  assert (O : observed (dropna c0) = observed c0)
    by (unfold observed, dropna; now rewrite filter_twice).
  destruct (last_price_available c0) as (lp & El & Hl).
  destruct (pct_window_available (dropna c0) 21) as (r21 & E21 & H21); [lia|].
  destruct (pct_window_available (dropna c0) 252) as (r252 & E252 & H252);
    [lia|].
  destruct (ytd_return_available clock (dropna c0)) as (ry & _ & Ey & Hy).
  rewrite O in *.
  exists (mkKpi lp r21 ry r252). split.
  { block (dropna c0); [exact Es|]. block lp; [exact El|].
    block r21; [exact E21|]. block r252; [exact E252|].
    block ry; [exact Ey|]. reflexivity. }
  cbn [last_px ret_1m ret_ytd ret_1y]. split; [|split].
  - intros Hc. rewrite (Hnone Hc) in *. cbn in H21, H252, Hy, Hl.
    destruct (not_None_dec lp) as [->|N]; [|apply Hl in N; lia].
    destruct (not_None_dec r21) as [->|N]; [|apply H21 in N; lia].
    destruct (not_None_dec r252) as [->|N]; [|apply H252 in N; lia].
    destruct (not_None_dec ry) as [->|N]; [|apply Hy in N; lia].
    reflexivity.
  - rewrite H21, H252. lia.
  - rewrite H21, Hl. intros [H|H]; [lia | specialize (Hy H); lia].
Qed.

End Availability.

(** ** Worked examples of the further properties *)

Section MoreExamples.

Lemma pct_window_shorter_window_witness :
  0 <= 1 <= 4
  /\ pct_window five_days 4 = Ret (Some (110 / 100 - 1)%float)
  /\ exists w, pct_window five_days 1 = Ret (Some w)
               /\ _ret_days five_days 1 = Ret (Some w).
Proof.
  split; [lia|]. split; [reflexivity|].
  apply (pct_window_shorter_window five_days 1 4 (110 / 100 - 1)%float);
    [lia | reflexivity].
Defined.

Lemma pct_window_recent_only_witness :
  0 <= 4 < Z.of_nat (length (observed five_days))
  /\ pct_window (one_older_day ++ five_days) 4 = pct_window five_days 4
  /\ _ret_days (one_older_day ++ five_days) 4 = _ret_days five_days 4.
Proof.
  assert (H : 0 <= 4 < Z.of_nat (length (observed five_days)))
    by (vm_compute; split; [discriminate | reflexivity]).
  split; [exact H|].
  apply (pct_window_recent_only one_older_day five_days 4 H).
Defined.

Lemma ytd_return_is_a_window_witness :
  Sorted index_le across_new_year
  /\ (2 <= length (ytd_slice mid_2024 across_new_year))%nat
  /\ ytd_return mid_2024 across_new_year = pct_window across_new_year 1.
Proof.
  assert (S : Sorted index_le across_new_year)
    by (repeat constructor; unfold index_le; cbn; lia).
  assert (L : (2 <= length (ytd_slice mid_2024 across_new_year))%nat)
    by (vm_compute; lia).
  split; [exact S|]. split; [exact L|].
  exact (ytd_return_is_a_window mid_2024 across_new_year S L).
Defined.

Lemma col_like_row_exists_witness :
  _col_like (Some two_line_table) ["income"] = Some "Net Income"
  /\ exists cells,
       ("Net Income", cells) ∈ rows two_line_table
       /\ loc two_line_table "Net Income"
          = Ret (combine (columns two_line_table) cells).
Proof.
  split; [reflexivity|].
  apply (col_like_row_exists two_line_table ["income"]). reflexivity.
Defined.

Lemma col_like_first_row_witness :
  NoDup (map lower (index two_line_table))
  /\ _col_like (Some two_line_table) ["income"; "total"] = Some "Net Income"
  /\ exists pre name post before after,
       ["income"; "total"] = pre ++ name :: post
       /\ (forall c l', c ∈ pre -> l' ∈ index two_line_table ->
                        ~ label_like c l')
       /\ index two_line_table = before ++ "Net Income" :: after
       /\ label_like name "Net Income"
       /\ (forall l', l' ∈ before -> ~ label_like name l').
Proof.
  assert (N : NoDup (map lower (index two_line_table)))
    by (apply (proj1 (bool_decide_eq_true _)); vm_compute; reflexivity).
  split; [exact N|]. split; [reflexivity|].
  apply (col_like_first_row two_line_table ["income"; "total"] _ N).
  reflexivity.
Defined.

Lemma col_like_last_spelling_witness :
  _col_like (Some two_spellings_table) ["net income"] = Some "NET INCOME"
  /\ exists before after,
       index two_spellings_table = before ++ "NET INCOME" :: after
       /\ (forall l', l' ∈ after -> lower l' <> lower "NET INCOME").
Proof.
  split; [reflexivity|].
  apply (col_like_last_spelling two_spellings_table ["net income"]).
  reflexivity.
Defined.

Lemma latest_value_most_recent_witness :
  latest_value (Some two_line_table) ["net income"] = Ret (Some 40%float)
  /\ exists row cells t,
       _col_like (Some two_line_table) ["net income"] = Some row
       /\ (row, cells) ∈ rows two_line_table
       /\ (t, 40%float) ∈ combine (columns two_line_table) cells
       /\ PrimFloat.is_nan 40 = false
       /\ (forall t' v',
             (t', v') ∈ dropna (combine (columns two_line_table) cells) ->
             t' <= t).
Proof.
  split; [reflexivity|].
  apply (latest_value_most_recent two_line_table ["net income"]). reflexivity.
Defined.

Lemma ttm_sum_four_latest_witness :
  empty two_line_table = false
  /\ _col_like (Some two_line_table) ["net income"] = Some "Net Income"
  /\ ("Net Income", [40; 60; 50; 100]%float) ∈ rows two_line_table
  /\ exists older top,
       Permutation (dropna (combine (columns two_line_table)
                                    [40; 60; 50; 100]%float))
                   (older ++ top)
       /\ length top = 4%nat
       /\ (forall p q, p ∈ older -> q ∈ top -> fst p <= fst q)
       /\ ttm_sum (Some two_line_table) ["net income"] = Ret (Some (sum top)).
Proof.
  assert (R : ("Net Income", [40; 60; 50; 100]%float) ∈ rows two_line_table)
    by (apply elem_of_cons; right; apply elem_of_cons; now left).
  split; [reflexivity|]. split; [reflexivity|]. split; [exact R|].
  apply (ttm_sum_four_latest two_line_table ["net income"] "Net Income"
                             [40; 60; 50; 100]%float eq_refl eq_refl R).
  vm_compute. lia.
Defined.

Lemma compute_core_ratios_reads_three_tables_witness :
  income_only !! "income_q" = income_and_annual !! "income_q"
  /\ income_only !! "bs_a" = income_and_annual !! "bs_a"
  /\ income_only !! "cf_q" = income_and_annual !! "cf_q"
  /\ compute_core_ratios (Some 10%float) shares_only income_only
     = compute_core_ratios (Some 10%float) shares_only income_and_annual.
Proof.
  assert (H1 : income_only !! "income_q" = income_and_annual !! "income_q")
    by reflexivity.
  assert (H2 : income_only !! "bs_a" = income_and_annual !! "bs_a")
    by reflexivity.
  assert (H3 : income_only !! "cf_q" = income_and_annual !! "cf_q")
    by reflexivity.
  split; [exact H1|]. split; [exact H2|]. split; [exact H3|].
  exact (compute_core_ratios_reads_three_tables _ _ _ _ H1 H2 H3).
Defined.

Lemma spaced_candidates_on_space_free_labels_witness :
  space_free (Some camel_case_table)
  /\ Forall (fun c => spaced c = true) ["net income"; "net income common"]
  /\ _col_like (Some camel_case_table) ["net income"; "net income common"]
     = None
  /\ ttm_sum (Some camel_case_table) ["net income"; "net income common"]
     = Ret None
  /\ latest_value (Some camel_case_table) ["net income"; "net income common"]
     = Ret None.
Proof.
  assert (F : space_free (Some camel_case_table))
    by (repeat constructor).
  assert (C : Forall (fun c => spaced c = true)
                     ["net income"; "net income common"])
    by (repeat constructor).
  split; [exact F|]. split; [exact C|].
  exact (spaced_candidates_on_space_free_labels _ _ F C).
Defined.

Lemma camel_case_statements_space_free (k : string) :
  space_free (camel_case_statements !! k).
Proof.
  unfold camel_case_statements.
  destruct (decide (k = "income_q")) as [->|Hne].
  - rewrite lookup_singleton_eq. repeat constructor.
  - rewrite lookup_singleton_ne by congruence. exact I.
Defined.

Lemma space_free_statements_witness :
  (forall k, space_free (camel_case_statements !! k))
  /\ exists out,
       compute_core_ratios (Some 10%float) shares_only camel_case_statements
       = Ret out
       /\ out !! "P/E (TTM)" = Some (get shares_only "trailingPE")
       /\ out !! "EV/EBITDA (TTM)" = Some (get shares_only "enterpriseToEbitda")
       /\ Forall (fun k => out !! k = Some None)
                 ["FCF Yield (TTM)"; "ROE (TTM)"; "D/E"; "Current Ratio";
                  "Interest Coverage"].
Proof.
  split; [exact camel_case_statements_space_free|].
  exact (space_free_statements (Some 10%float) shares_only
           camel_case_statements camel_case_statements_space_free).
Defined.

Lemma normalize_ticker_idempotent_witness :
  isascii " ry.to " = true
  /\ FicheValeur._normalize_ticker " ry.to " = "RY.TO"%string
  /\ FicheValeur._normalize_ticker (FicheValeur._normalize_ticker " ry.to ")
     = FicheValeur._normalize_ticker " ry.to "
  /\ Comparateur._normalize_tsx (Comparateur._normalize_tsx " ry.to ")
     = Comparateur._normalize_tsx " ry.to "
  /\ Comparateur._normalize_tsx " ry.to "
     = FicheValeur._normalize_ticker " ry.to ".
Proof.
  split; [reflexivity|]. split; [reflexivity|].
  exact (normalize_ticker_idempotent " ry.to " eq_refl).
Defined.

Lemma page_ticker_normal_form_witness :
  isascii " ry" = true
  /\ " ry"%string <> EmptyString
  /\ FicheValeur._normalize_ticker " ry" = "RY.TO"%string
  /\ strip (FicheValeur._normalize_ticker " ry")
     = FicheValeur._normalize_ticker " ry"
  /\ upper (FicheValeur._normalize_ticker " ry")
     = FicheValeur._normalize_ticker " ry"
  /\ (startswith "^" (FicheValeur._normalize_ticker " ry") = true
      \/ endswith ".TO" (FicheValeur._normalize_ticker " ry") = true).
Proof.
  assert (N : " ry"%string <> EmptyString) by discriminate.
  split; [reflexivity|]. split; [exact N|]. split; [reflexivity|].
  exact (page_ticker_normal_form " ry" eq_refl N).
Defined.

Lemma source_ticker_normal_form_witness :
  isascii "^gsptse" = true
  /\ DataSource._normalize_ticker "^gsptse" = "^GSPTSE"%string
  /\ DataSource._normalize_ticker (DataSource._normalize_ticker "^gsptse")
     = DataSource._normalize_ticker "^gsptse"
  /\ strip (DataSource._normalize_ticker "^gsptse")
     = DataSource._normalize_ticker "^gsptse"
  /\ upper (DataSource._normalize_ticker "^gsptse")
     = DataSource._normalize_ticker "^gsptse"
  /\ (endswith ".TO" (DataSource._normalize_ticker "^gsptse") = true
      \/ DataSource._normalize_ticker "^gsptse" ∈ known_indices).
Proof.
  split; [reflexivity|]. split; [reflexivity|].
  exact (source_ticker_normal_form "^gsptse" eq_refl).
Defined.

Lemma source_after_page_normalisation_witness :
  isascii "^dji" = true
  /\ "^dji"%string <> EmptyString
  /\ FicheValeur._normalize_ticker "^dji" = "^DJI"%string
  /\ DataSource._normalize_ticker (FicheValeur._normalize_ticker "^dji")
     = "^DJI.TO"%string.
Proof.
  assert (N : "^dji"%string <> EmptyString) by discriminate.
  split; [reflexivity|]. split; [exact N|]. split; [reflexivity|].
  rewrite (proj2 (source_after_page_normalisation "^dji" eq_refl N)).
  - reflexivity.
  - reflexivity.
  - reflexivity.
  - intros H. repeat (apply elem_of_cons in H as [H|H]; [discriminate H|]).
    now apply elem_of_nil in H.
Defined.

End MoreExamples.
